(** * ADVClock: a stopwatch over a monotonic clock, with unit conversion

    Shallow embedding of [src/advclock/advclock.hpp] (class template
    [std::chrono::ADVClock<T>]) and verification of its specification.

    - Machine integers are [Z] with the two's-complement wrap written out:
      the 64-bit subtractions of time points and durations wrap.
    - The template parameter [rtnType] ranges over the arithmetic types of
      C++ ([ctype]); values carry their type ([cval]); the usual arithmetic
      conversions and the conversions between arithmetic types follow the
      C++ rules.  An operation whose behaviour the language leaves
      undefined yields [None]: an integer division by zero or with an
      unrepresentable quotient, a floating value converted to an integer
      type that cannot represent it, a member function called on an object
      that does not exist.
    - Floating-point arithmetic is abstracted by the class [FloatSem], with
      two instances: [IEEE] (binary32/binary64, round to nearest even, from
      the Standard Library's [SpecFloat]) and [Exact] (rationals, no
      rounding).
    - The clock is an oracle giving the value of the k-th call of
      [ClockType::now()]; the objects live in a store indexed by address. *)

From Stdlib Require Import ZArith QArith Qcanon Lia Bool.
From Stdlib.Floats Require Import SpecFloat.
From stdpp Require Import base option gmap.

Local Open Scope Z_scope.

(** ** Machine integers *)

Inductive width := W8 | W16 | W32 | W64.

Definition bits (w : width) : Z :=
  match w with W8 => 8 | W16 => 16 | W32 => 32 | W64 => 64 end.

(** Value range of the integer type of signedness [s] and width [w]. *)
Definition int_min (s : bool) (w : width) : Z :=
  if s then - 2 ^ (bits w - 1) else 0.

Definition int_max (s : bool) (w : width) : Z :=
  if s then 2 ^ (bits w - 1) - 1 else 2 ^ bits w - 1.

Definition in_range (s : bool) (w : width) (z : Z) : bool :=
  (int_min s w <=? z) && (z <=? int_max s w).

(** Conversion of an integer to an integer type: the unique value of the
    destination type congruent to the source modulo [2 ^ bits]. *)
Definition wrap (s : bool) (w : width) (z : Z) : Z :=
  if s then (z + 2 ^ (bits w - 1)) mod 2 ^ bits w - 2 ^ (bits w - 1)
  else z mod 2 ^ bits w.

(** [int64_t(x)] *)
Definition int64_t (z : Z) : Z := wrap true W64 z.

Definition in_int64 (z : Z) : Prop := - 2 ^ 63 <= z <= 2 ^ 63 - 1.

(** ** Floating-point semantics *)

Inductive fmt := Binary32 | Binary64.

Class FloatSem := {
  flt : Type;
  (** integer to floating conversion *)
  flt_of_Z : fmt -> Z -> flt;
  (** value of a decimal literal of type [double] *)
  flt_lit : Q -> flt;
  (** conversion of a floating value to a format *)
  flt_cast : fmt -> flt -> flt;
  (** division in a format *)
  flt_div : fmt -> flt -> flt -> flt;
  (** truncation toward zero; [None] when there is no integer value *)
  flt_trunc : flt -> option Z;
  (** comparison with zero *)
  flt_is_zero : flt -> bool
}.

(** *** IEEE 754 *)

Definition prec (f : fmt) : Z :=
  match f with Binary32 => 24 | Binary64 => 53 end.

Definition emax (f : fmt) : Z :=
  match f with Binary32 => 128 | Binary64 => 1024 end.

Definition ieee_of_Z (f : fmt) (z : Z) : spec_float :=
  binary_normalize (prec f) (emax f) z 0 false.

Definition ieee_cast (f : fmt) (x : spec_float) : spec_float :=
  match x with
  | S754_finite s m e => binary_round (prec f) (emax f) s m e
  | _ => x
  end.

Definition ieee_div (f : fmt) (x y : spec_float) : spec_float :=
  SFdiv (prec f) (emax f) x y.

(** A decimal literal whose numerator and denominator are both below
    [2 ^ 53] is the correctly rounded quotient of the two. *)
Definition ieee_lit (q : Q) : spec_float :=
  ieee_div Binary64 (ieee_of_Z Binary64 (Qnum q))
                    (ieee_of_Z Binary64 (Zpos (Qden q))).

Definition ieee_trunc (x : spec_float) : option Z :=
  match x with
  | S754_zero _ => Some 0
  | S754_finite s m e =>
      let a := match e with
               | Zneg p => Zpos m / 2 ^ Zpos p
               | _ => Zpos m * 2 ^ e
               end in
      Some (if s then - a else a)
  | _ => None
  end.

Definition ieee_is_zero (x : spec_float) : bool :=
  match x with S754_zero _ => true | _ => false end.

Definition IEEE : FloatSem := {|
  flt := spec_float;
  flt_of_Z := ieee_of_Z;
  flt_lit := ieee_lit;
  flt_cast := ieee_cast;
  flt_div := ieee_div;
  flt_trunc := ieee_trunc;
  flt_is_zero := ieee_is_zero
|}.

(** *** Exact rationals *)

Definition exact_trunc (q : Qc) : option Z :=
  Some (Z.quot (Qnum q) (Zpos (Qden q))).

Definition Exact : FloatSem := {|
  flt := Qc;
  flt_of_Z := fun _ z => Q2Qc (inject_Z z);
  flt_lit := Q2Qc;
  flt_cast := fun _ x => x;
  flt_div := fun _ x y => (x / y)%Qc;
  flt_trunc := exact_trunc;
  flt_is_zero := fun x => Qeq_bool x 0
|}.

(** ** Arithmetic types and values *)

(** The arithmetic types a caller can choose for [rtnType] (LP64: [char]
    is 8 bits, [short] 16, [int] 32, [long] and [long long] 64; the
    platform-dependent [long double] is left out). *)
Inductive ctype :=
| TBool
| TInt (signed : bool) (w : width)
| TFloat
| TDouble.

(** A value of an arithmetic type; [F] is the carrier of the floating
    values. *)
Inductive value (F : Type) :=
| VBool (b : bool)
| VInt (signed : bool) (w : width) (z : Z)
| VFloat (x : F)
| VDouble (x : F).

Arguments VBool {F} b.
Arguments VInt {F} signed w z.
Arguments VFloat {F} x.
Arguments VDouble {F} x.

Abbreviation cval := (value flt).

Section Arithmetic.
Context {FS : FloatSem}.

Definition type_of (v : cval) : ctype :=
  match v with
  | VBool _ => TBool
  | VInt s w _ => TInt s w
  | VFloat _ => TFloat
  | VDouble _ => TDouble
  end.

(** Floating-integral conversion [conv.fpint]: the value is truncated;
    the behaviour is undefined when the truncated value cannot be
    represented in the destination type. *)
Definition float_to_int (s : bool) (w : width) (x : flt) : option cval :=
  match flt_trunc x with
  | Some z => if in_range s w z then Some (VInt s w z) else None
  | None => None
  end.

(** Conversion of a value to an arithmetic type ([T(v)], and the
    implicit conversion of a [return] operand). *)
Definition convert (t : ctype) (v : cval) : option cval :=
  match t, v with
  | TBool, VBool b => Some (VBool b)
  | TBool, VInt _ _ z => Some (VBool (negb (z =? 0)))
  | TBool, VFloat x => Some (VBool (negb (flt_is_zero x)))
  | TBool, VDouble x => Some (VBool (negb (flt_is_zero x)))
  | TInt s w, VBool b => Some (VInt s w (if b then 1 else 0))
  | TInt s w, VInt _ _ z => Some (VInt s w (wrap s w z))
  | TInt s w, VFloat x => float_to_int s w x
  | TInt s w, VDouble x => float_to_int s w x
  | TFloat, VBool b => Some (VFloat (flt_of_Z Binary32 (if b then 1 else 0)))
  | TFloat, VInt _ _ z => Some (VFloat (flt_of_Z Binary32 z))
  | TFloat, VFloat x => Some (VFloat x)
  | TFloat, VDouble x => Some (VFloat (flt_cast Binary32 x))
  | TDouble, VBool b => Some (VDouble (flt_of_Z Binary64 (if b then 1 else 0)))
  | TDouble, VInt _ _ z => Some (VDouble (flt_of_Z Binary64 z))
  | TDouble, VFloat x => Some (VDouble (flt_cast Binary64 x))
  | TDouble, VDouble x => Some (VDouble x)
  end.

(** Integral promotion [conv.prom]: [bool] and the integer types
    narrower than [int] become [int]. *)
Definition promote (t : ctype) : ctype :=
  match t with
  | TBool | TInt _ W8 | TInt _ W16 => TInt true W32
  | _ => t
  end.

Definition wider (w1 w2 : width) : width :=
  if bits w1 <? bits w2 then w2 else w1.

(** Usual arithmetic conversions [expr.arith.conv]: the common type of
    the operands of a binary operator. *)
Definition common_type (t1 t2 : ctype) : ctype :=
  match t1, t2 with
  | TDouble, _ | _, TDouble => TDouble
  | TFloat, _ | _, TFloat => TFloat
  | _, _ =>
      match promote t1, promote t2 with
      | TInt s1 w1, TInt s2 w2 =>
          if Bool.eqb s1 s2 then TInt s1 (wider w1 w2)
          else
            let ws := if s1 then w1 else w2 in
            let wu := if s1 then w2 else w1 in
            if bits ws <=? bits wu then TInt false wu else TInt true ws
      | t, _ => t
      end
  end.

(** [a / b] on operands of one type.  Integer division truncates toward
    zero; the behaviour is undefined for a zero divisor and for a
    quotient that is not representable [expr.mul]. *)
Definition div_same (a b : cval) : option cval :=
  match a, b with
  | VInt s w x, VInt _ _ y =>
      if y =? 0 then None
      else if in_range s w (Z.quot x y) then Some (VInt s w (Z.quot x y))
      else None
  | VFloat x, VFloat y => Some (VFloat (flt_div Binary32 x y))
  | VDouble x, VDouble y => Some (VDouble (flt_div Binary64 x y))
  | _, _ => None
  end.

(** [a / b] *)
Definition cdiv (a b : cval) : option cval :=
  let t := common_type (type_of a) (type_of b) in
  a' ← convert t a; b' ← convert t b; div_same a' b'.

(** [a / b] on operands whose evaluation may be undefined *)
Definition odiv (a b : option cval) : option cval :=
  x ← a; y ← b; cdiv x y.

End Arithmetic.

(** ** The conversion routine *)

(** [enum Precision : char] *)
Inductive Precision :=
| Nanoseconds | Microseconds | Milliseconds | Seconds | Minutes
| Hours | Days | Weeks | Months | Years.

(** The enumerators' values.  An object of type [Precision] can hold every
    value of its underlying type [char], so the selector [(int)precision]
    of the [switch] is an integer that need not be one of these. *)
Definition Precision_int (p : Precision) : Z :=
  match p with
  | Nanoseconds => 0 | Microseconds => 1 | Milliseconds => 2 | Seconds => 3
  | Minutes => 4 | Hours => 5 | Days => 6 | Weeks => 7 | Months => 8
  | Years => 9
  end.

Section Conversion.
Context {FS : FloatSem}.

Definition SecsInMin : option cval := Some (VInt true W32 60).
Definition MinsInHour : option cval := Some (VInt true W32 60).
Definition HoursInDay : option cval := Some (VInt true W32 24).
Definition DaysInWeek : option cval := Some (VInt true W32 7).
Definition DaysInYear : option cval := Some (VDouble (flt_lit (36524 # 100))).
Definition MonthsInYear : option cval := Some (VInt true W32 12).

Section RuntimeCastFromNano.
(** template argument *)
Variable rtnType : ctype.
(** [fromNanos.count()] *)
Variable fromNanos : Z.

Local Notation "a / b" := (odiv a b).

Definition divb1k (x : option cval) : option cval :=
  x / convert rtnType (VDouble (flt_lit (1000 # 1))).
Definition nanos : option cval := Some (VInt true W64 (int64_t fromNanos)).
Definition micros := divb1k nanos.
Definition millis := divb1k micros.
Definition secs := divb1k millis.
Definition mins := secs / SecsInMin.
Definition hours := mins / MinsInHour.
Definition days := hours / HoursInDay.
Definition weeks := days / DaysInWeek.
Definition years := days / DaysInYear.
Definition months := years / MonthsInYear.

(** [precision] is the selector [(int)precision]; the operand of each
    [return] is converted to [rtnType]. *)
Definition RuntimeCastFromNano (precision : Z) : option cval :=
  v ← match precision with
      | 0 => nanos
      | 1 => micros
      | 2 => millis
      | 3 => secs
      | 4 => mins
      | 5 => hours
      | 6 => days
      | 7 => weeks
      | 8 => months
      | 9 => years
      | _ => nanos
      end;
  convert rtnType v.

End RuntimeCastFromNano.

(** [duration_cast<nanoseconds>(cast)] at [castType = nanoseconds], the
    only instance the class itself uses: the identity. *)
Definition duration_cast_nanoseconds (cast : Z) : Z := cast.

(** [return RuntimeCastFromNano(duration_cast<nanoseconds>(cast),
    precision);]: the call names no template argument and [rtnType] cannot
    be deduced from the arguments, so it is [RuntimeCastFromNano<double>];
    the [double] it returns is converted to [rtnType] by the [return]. *)
Definition RuntimeCast (rtnType : ctype) (cast : Z) (precision : Z)
  : option cval :=
  v ← RuntimeCastFromNano TDouble (duration_cast_nanoseconds cast) precision;
  convert rtnType v.
End Conversion.

(** ** The stopwatch *)

(** The template parameter [T], with its static member [now()].  The clock
    is read through an oracle: [now_sample k] is the time point (a count of
    nanoseconds) that the k-th call of [ClockType::now()] of the run
    returns. *)
Class ClockType := { now_sample : nat -> Z }.

(** The only data member. *)
Record ADVClock := { m_begin : Z }.

(** The state of a run: the number of clock reads so far, the static member
    [GLOBAL_CLOCK], and the live instances by address. *)
Record World := {
  clock_reads : nat;
  GLOBAL_CLOCK : ADVClock;
  heap : gmap nat ADVClock
}.

(** Computations on the state; [None] is undefined behaviour. *)
Definition M (A : Type) : Type := World -> option (A * World).

#[global] Instance M_ret : MRet M := fun A a w => Some (a, w).
#[global] Instance M_bind : MBind M := fun A B f m w =>
  match m w with
  | Some (a, w') => f a w'
  | None => None
  end.

Section Stopwatch.
Context {FS : FloatSem} {CT : ClockType}.

(** [ClockType::now()] *)
Definition ClockType_now : M Z := fun w =>
  Some (now_sample (clock_reads w),
        {| clock_reads := S (clock_reads w);
           GLOBAL_CLOCK := GLOBAL_CLOCK w;
           heap := heap w |}).

(** [*this], read and written *)
Definition load (this : nat) : M ADVClock := fun w =>
  match heap w !! this with
  | Some o => Some (o, w)
  | None => None
  end.

Definition store (this : nat) (o : ADVClock) : M unit := fun w =>
  Some (tt, {| clock_reads := clock_reads w;
               GLOBAL_CLOCK := GLOBAL_CLOCK w;
               heap := <[this := o]> (heap w) |}).

(** Storage for a new object, at an address not in use. *)
Definition alloc (o : ADVClock) : M nat := fun w =>
  let this := fresh (dom (heap w)) in
  Some (this, {| clock_reads := clock_reads w;
                 GLOBAL_CLOCK := GLOBAL_CLOCK w;
                 heap := <[this := o]> (heap w) |}).

Definition load_GLOBAL_CLOCK : M ADVClock := fun w =>
  Some (GLOBAL_CLOCK w, w).

Definition defined {A : Type} (x : option A) : M A := fun w =>
  match x with
  | Some a => Some (a, w)
  | None => None
  end.

(** [ADVClock() : m_begin(ClockType::now()) { }], on fresh storage; the
    result is the address of the new instance. *)
Definition ADVClock_new : M nat :=
  t ← ClockType_now;
  alloc {| m_begin := t |}.

(** Subtraction of two time points, and of two durations: 64-bit. *)
Definition diff (a b : Z) : Z := int64_t (a - b).

Definition beginDur (this : nat) : M Z :=
  o ← load this;
  g ← load_GLOBAL_CLOCK;
  mret (diff (m_begin o) (m_begin g)).

Definition begin (rtnType : ctype) (precision : Z) (this : nat) : M cval :=
  d ← beginDur this;
  defined (RuntimeCast rtnType d (Precision_int Nanoseconds)).

Definition nowDur (this : nat) : M Z :=
  t ← ClockType_now;
  g ← load_GLOBAL_CLOCK;
  mret (diff t (m_begin g)).

Definition now (rtnType : ctype) (precision : Z) (this : nat) : M cval :=
  d ← nowDur this;
  defined (RuntimeCast rtnType d (Precision_int Nanoseconds)).

(** [m_begin = ClockType::now()]: the clock is read, then the member of
    [*this] is assigned. *)
Definition tare (this : nat) : M unit :=
  t ← ClockType_now;
  _ ← load this;
  store this {| m_begin := t |}.

(** [nowDur() - beginDur()]: the two operands have no effect on each
    other, so the order of their evaluation does not matter; then
    [tareClock ? tare() : void(0)]. *)
Definition elapsedRawNanoDur (tareClock : bool) (this : nat) : M Z :=
  n ← nowDur this;
  b ← beginDur this;
  let rtn := diff n b in
  _ ← (if tareClock then tare this else mret tt);
  mret rtn.

Definition elapsedRawNano (tareClock : bool) (this : nat) : M Z :=
  rtn ← elapsedRawNanoDur false this;
  _ ← (if tareClock then tare this else mret tt);
  mret rtn.

Definition elapsed (rtnType : ctype) (precision : Z) (tareClock : bool)
    (this : nat) : M cval :=
  d ← elapsedRawNanoDur tareClock this;
  defined (RuntimeCast rtnType d precision).

(** The state before any dynamic initialisation: static storage is
    zero-initialised and no instance exists. *)
Definition zero_initialised : World :=
  {| clock_reads := O; GLOBAL_CLOCK := {| m_begin := 0 |}; heap := ∅ |}.

(** Dynamic initialisation of the static member [GLOBAL_CLOCK] by its
    default constructor. *)
Definition construct_GLOBAL_CLOCK (o : ADVClock) : M unit := fun w =>
  Some (tt, {| clock_reads := clock_reads w;
               GLOBAL_CLOCK := o;
               heap := heap w |}).

Definition init_GLOBAL_CLOCK : M unit :=
  t ← ClockType_now;
  construct_GLOBAL_CLOCK {| m_begin := t |}.

(** What a client of the class can do with it. *)
Inductive call :=
| Call_new
| Call_beginDur (this : nat)
| Call_begin (rtnType : ctype) (precision : Z) (this : nat)
| Call_nowDur (this : nat)
| Call_now (rtnType : ctype) (precision : Z) (this : nat)
| Call_elapsedRawNanoDur (tareClock : bool) (this : nat)
| Call_elapsedRawNano (tareClock : bool) (this : nat)
| Call_elapsed (rtnType : ctype) (precision : Z) (tareClock : bool)
    (this : nat)
| Call_tare (this : nat).

Definition exec (c : call) : M unit :=
  match c with
  | Call_new => _ ← ADVClock_new; mret tt
  | Call_beginDur this => _ ← beginDur this; mret tt
  | Call_begin r p this => _ ← begin r p this; mret tt
  | Call_nowDur this => _ ← nowDur this; mret tt
  | Call_now r p this => _ ← now r p this; mret tt
  | Call_elapsedRawNanoDur b this => _ ← elapsedRawNanoDur b this; mret tt
  | Call_elapsedRawNano b this => _ ← elapsedRawNano b this; mret tt
  | Call_elapsed r p b this => _ ← elapsed r p b this; mret tt
  | Call_tare this => tare this
  end.

Fixpoint run (cs : list call) : M unit :=
  match cs with
  | [] => mret tt
  | c :: cs' => _ ← exec c; run cs'
  end.

(** A whole run: the static member is initialised, then the client's
    calls are made. *)
Definition program (cs : list call) : option (unit * World) :=
  (_ ← init_GLOBAL_CLOCK; run cs) zero_initialised.
End Stopwatch.

(** ** The specification's own formulations *)

Section Specification.
Context {FS : FloatSem} {CT : ClockType}.

(** "ClockSource.now() - referenceTimePoint": the elapsed time read
    directly, without going through the process epoch. *)
Definition elapsed_direct (this : nat) : M Z :=
  t ← ClockType_now;
  o ← load this;
  mret (diff t (m_begin o)).

(** Division of a [double] by a [double] literal. *)
Definition div_lit (x : flt) (q : Q) : flt :=
  flt_div Binary64 x (flt_lit q).

(** The conversion algorithm as the specification lists it: every unit
    is a chained division that starts from the raw count. *)
Definition chained_division (n : Z) (u : Precision) : flt :=
  let nanos := flt_of_Z Binary64 n in
  let micros := div_lit nanos (1000 # 1) in
  let millis := div_lit micros (1000 # 1) in
  let secs := div_lit millis (1000 # 1) in
  let mins := div_lit secs (60 # 1) in
  let hours := div_lit mins (60 # 1) in
  let days := div_lit hours (24 # 1) in
  let weeks := div_lit days (7 # 1) in
  let years := div_lit days (36524 # 100) in
  let months := div_lit years (12 # 1) in
  match u with
  | Nanoseconds => nanos
  | Microseconds => micros
  | Milliseconds => millis
  | Seconds => secs
  | Minutes => mins
  | Hours => hours
  | Days => days
  | Weeks => weeks
  | Months => months
  | Years => years
  end.

(** [convert(d, unit)] with the default return type, as a number. *)
Definition convert_double (d : Z) (u : Precision) : option flt :=
  match RuntimeCastFromNano TDouble d (Precision_int u) with
  | Some (VDouble x) => Some x
  | _ => None
  end.

(** The fixed ratios between the converted values of adjacent units. *)
Definition adjacent_ratios (d : Z) : Prop :=
  let c := convert_double d in
  let over q (x : option flt) := (fun v => div_lit v q) <$> x in
  is_Some (c Nanoseconds) /\
  c Microseconds = over (1000 # 1) (c Nanoseconds) /\
  c Milliseconds = over (1000 # 1) (c Microseconds) /\
  c Seconds = over (1000 # 1) (c Milliseconds) /\
  c Minutes = over (60 # 1) (c Seconds) /\
  c Hours = over (60 # 1) (c Minutes) /\
  c Days = over (24 # 1) (c Hours) /\
  c Weeks = over (7 # 1) (c Days) /\
  c Years = over (36524 # 100) (c Days) /\
  c Months = over (12 # 1) (c Years).

(** The [int] constants of the source and the [double] literals of the
    specification denote the same [double]. *)
Definition literals_agree : Prop :=
  flt_of_Z Binary64 60 = flt_lit (60 # 1) /\
  flt_of_Z Binary64 24 = flt_lit (24 # 1) /\
  flt_of_Z Binary64 7 = flt_lit (7 # 1) /\
  flt_of_Z Binary64 12 = flt_lit (12 # 1).

(** The value zero of an arithmetic type. *)
Definition zero (t : ctype) : cval :=
  match t with
  | TBool => VBool false
  | TInt s w => VInt s w 0
  | TFloat => VFloat (flt_of_Z Binary32 0)
  | TDouble => VDouble (flt_of_Z Binary64 0)
  end.

(** The return types that can hold the divisor [rtnType(1000.0)]:
    all but the 8-bit integer types. *)
Definition holds_1000 (t : ctype) : bool :=
  match t with
  | TInt _ W8 => false
  | _ => true
  end.

(** The selectors of the ten enumerators. *)
Definition enumerator (precision : Z) : bool :=
  (0 <=? precision) && (precision <=? 9).

(** The query operations: every member function called without a
    request to tare. *)
Definition query (c : call) : bool :=
  match c with
  | Call_beginDur _ | Call_begin _ _ _ | Call_nowDur _ | Call_now _ _ _
  | Call_elapsedRawNanoDur false _ | Call_elapsedRawNano false _
  | Call_elapsed _ _ false _ => true
  | _ => false
  end.

(** The calls that assign to the data member of the instance at [a]. *)
Definition assigns (c : call) (a : nat) : bool :=
  match c with
  | Call_tare this
  | Call_elapsedRawNanoDur true this
  | Call_elapsedRawNano true this
  | Call_elapsed _ _ true this => bool_decide (this = a)
  | _ => false
  end.

(** The state a run ends in. *)
Definition final (cs : list call) : World :=
  match program cs with
  | Some (_, w) => w
  | None => zero_initialised
  end.
End Specification.

(** Nanoseconds per unit, as the chain of divisions defines the units
    (a year is 365.24 days; a "month" is the twelfth part of the year
    count, so its divisor is twelve times the year's). *)
Definition unit_ns (u : Precision) : Q :=
  match u with
  | Nanoseconds => 1
  | Microseconds => 1000
  | Milliseconds => 1000000
  | Seconds => 1000000000
  | Minutes => 60000000000
  | Hours => 3600000000000
  | Days => 86400000000000
  | Weeks => 604800000000000
  | Years => 31556736000000000
  | Months => 378680832000000000
  end.

(** A clock for examples: it starts at 1000 and advances by 250 between
    two reads. *)
Definition demo_clock : ClockType :=
  {| now_sample := fun k => 1000 + 250 * Z.of_nat k |}.

(** A state for examples: the epoch is 1000, one instance created at 1250,
    two clock reads made. *)
Definition demo_world : World :=
  {| clock_reads := 2;
     GLOBAL_CLOCK := {| m_begin := 1000 |};
     heap := {[ O := {| m_begin := 1250 |} ]} |}.

(** ** Further notions *)

(** A steady clock: the samples never decrease and are non-negative 64-bit
    counts ([steady_clock::is_steady], with a 64-bit representation). *)
Definition steady (CT : ClockType) : Prop :=
  (forall i j : nat, (i <= j)%nat -> now_sample i <= now_sample j) /\
  (forall k : nat, 0 <= now_sample k <= 2 ^ 63 - 1).

(** A steady clock for examples: [demo_clock], capped at the largest
    64-bit count. *)
Definition capped_clock : ClockType :=
  {| now_sample := fun k => Z.min (1000 + 250 * Z.of_nat k) (2 ^ 63 - 1) |}.

(** A clock for examples whose second and later samples come a little
    over 104 days after the first. *)
Definition late_clock : ClockType :=
  {| now_sample := fun k => match k with O => 0 | S _ => 2 ^ 53 + 1 end |}.

Section Accounting.
Context {FS : FloatSem} {CT : ClockType}.

(** The number of clock reads a call makes. *)
Definition reads_of (c : call) : nat :=
  match c with
  | Call_beginDur _ | Call_begin _ _ _ => 0
  | Call_new | Call_nowDur _ | Call_now _ _ _ | Call_tare _ => 1
  | Call_elapsedRawNanoDur b _ | Call_elapsedRawNano b _
  | Call_elapsed _ _ b _ => if b then 2 else 1
  end.

(** Every reference point is a sample read earlier in the run, and so is
    the epoch: the first one. *)
Definition sampled (w : World) : Prop :=
  GLOBAL_CLOCK w = {| m_begin := now_sample O |} /\
  (1 <= clock_reads w)%nat /\
  forall (a : nat) (o : ADVClock),
    heap w !! a = Some o ->
    exists k : nat, (k < clock_reads w)%nat /\ m_begin o = now_sample k.
End Accounting.

Section IntegralReturn.
Context {FS : FloatSem}.

(** The literal [1000.0] has the integer value 1000. *)
Definition literal_1000 : Prop :=
  flt_trunc (flt_lit (1000 # 1)) = Some 1000.

(** The units whose value the chain computes by the divisions alone,
    without the [double] constant [DaysInYear]. *)
Definition whole_unit (u : Precision) : bool :=
  match u with
  | Months | Years => false
  | _ => true
  end.
End IntegralReturn.

(** Nanoseconds per unit, as an integer. *)
Definition unit_count (u : Precision) : Z := Qnum (unit_ns u).

(** The number of whole days of a count of nanoseconds. *)
Definition whole_days (n : Z) : Z := Z.quot n 86400000000000.

(** * Verification *)

(** ** 64-bit arithmetic *)

Lemma int64_t_id (z : Z) : in_int64 z -> int64_t z = z.
Proof.
  unfold in_int64, int64_t, wrap; simpl bits; intros H.
  change (64 - 1) with 63.
  rewrite Z.mod_small; lia.
Qed.

Lemma int64_t_range (z : Z) : in_int64 (int64_t z).
Proof.
  unfold in_int64, int64_t, wrap; simpl bits.
  change (64 - 1) with 63.
  pose proof (Z.mod_pos_bound (z + 2 ^ 63) (2 ^ 64) ltac:(lia)).
  lia.
Qed.

Lemma int64_t_idem (z : Z) : int64_t (int64_t z) = int64_t z.
Proof. apply int64_t_id, int64_t_range. Qed.

(** The wrapped value is congruent to the exact one. *)
Lemma int64_t_congr (z : Z) : exists k, int64_t z = z + k * 2 ^ 64.
Proof.
  exists (- ((z + 2 ^ 63) / 2 ^ 64)).
  unfold int64_t, wrap; simpl bits. change (64 - 1) with 63.
  pose proof (Z.div_mod (z + 2 ^ 63) (2 ^ 64) ltac:(lia)).
  lia.
Qed.

Lemma int64_t_periodic (z k : Z) : int64_t (z + k * 2 ^ 64) = int64_t z.
Proof.
  unfold int64_t, wrap; simpl bits. change (64 - 1) with 63.
  replace (z + k * 2 ^ 64 + 2 ^ 63) with (z + 2 ^ 63 + k * 2 ^ 64) by lia.
  now rewrite Z_mod_plus_full.
Qed.

(** The epoch cancels, whatever wraps on the way. *)
Lemma diff_cancel (t b e : Z) : diff (diff t e) (diff b e) = diff t b.
Proof.
  unfold diff.
  destruct (int64_t_congr (t - e)) as [k1 ->].
  destruct (int64_t_congr (b - e)) as [k2 ->].
  replace (t - e + k1 * 2 ^ 64 - (b - e + k2 * 2 ^ 64))
    with (t - b + (k1 - k2) * 2 ^ 64) by lia.
  apply int64_t_periodic.
Qed.

Lemma diff_exact (a b : Z) : in_int64 (a - b) -> diff a b = a - b.
Proof. apply int64_t_id. Qed.

(** With a monotonic clock nothing wraps: when the epoch [e], the reference
    point [b] and the sample [t] are non-negative 64-bit counts taken in
    this order, every difference is the exact one and the elapsed time is
    not negative. *)
Lemma diff_ordered (t b e : Z) :
  0 <= e -> e <= b -> b <= t -> t <= 2 ^ 63 - 1 ->
  diff t e = t - e /\ diff b e = b - e /\
  diff (diff t e) (diff b e) = t - b /\ 0 <= t - b.
Proof.
  intros He Hb Ht Hmax.
  rewrite diff_cancel, !diff_exact by (unfold in_int64; lia).
  lia.
Qed.

(** ** The stopwatch: elapsed time, reset, epoch, frame *)

Section StopwatchFacts.
Context {FS : FloatSem} {CT : ClockType}.

Ltac unfold_M :=
  unfold elapsed, elapsedRawNano, elapsedRawNanoDur, elapsed_direct, tare,
    now, nowDur, begin, beginDur, ADVClock_new, alloc, defined,
    load_GLOBAL_CLOCK, store, load, ClockType_now,
    mbind, M_bind, mret, M_ret in *;
  cbn [clock_reads GLOBAL_CLOCK heap m_begin] in *.

Lemma convert_int_defined (rtnType : ctype) (s : bool) (w : width) (z : Z) :
  is_Some (convert rtnType (VInt s w z)).
Proof. destruct rtnType; cbn; eauto. Qed.

Lemma RuntimeCast_Nanoseconds (rtnType : ctype) (d : Z) :
  RuntimeCast rtnType d (Precision_int Nanoseconds) =
  convert rtnType (VDouble (flt_of_Z Binary64 (int64_t d))).
Proof. reflexivity. Qed.

Lemma convert_int64_id (d : Z) :
  in_int64 d ->
  convert (TInt true W64) (VInt true W64 d) = Some (VInt true W64 d).
Proof.
  intros H. cbn [convert].
  now rewrite (int64_t_id d H : wrap true W64 d = d).
Qed.

(** The operands of [nowDur() - beginDur()] can be evaluated in either
    order. *)
Lemma nowDur_beginDur_commute (this : nat) (w : World) :
  (n ← nowDur this; b ← beginDur this; mret (n, b)) w =
  (b ← beginDur this; n ← nowDur this; mret (n, b)) w.
Proof.
  unfold_M. destruct (heap w !! this); reflexivity.
Qed.

(** Claim C2.  The elapsed time computed through the process epoch,
    [nowDur() - beginDur()], is the elapsed time read directly,
    [ClockType::now() - m_begin]: in 64-bit arithmetic the epoch cancels
    for every clock sample [t], reference point [b] and epoch [e];
    [elapsedRawNanoDur] is the same computation as [elapsed_direct]
    followed by the optional reset; and on an instance [o] both return the
    clock sample minus [m_begin o], after one clock read. *)
Theorem elapsedRawNanoDur_refines_direct
    (tareClock : bool) (this : nat) (w : World) (o : ADVClock) :
  heap w !! this = Some o ->
  let w1 := {| clock_reads := S (clock_reads w);
               GLOBAL_CLOCK := GLOBAL_CLOCK w;
               heap := heap w |} in
  (forall t b e : Z, diff (diff t e) (diff b e) = diff t b) /\
  elapsedRawNanoDur tareClock this w =
    (rtn ← elapsed_direct this;
     _ ← (if tareClock then tare this else mret tt);
     mret rtn) w /\
  elapsed_direct this w =
    Some (diff (now_sample (clock_reads w)) (m_begin o), w1) /\
  elapsedRawNanoDur false this w =
    Some (diff (now_sample (clock_reads w)) (m_begin o), w1).
Proof.
  intros Hthis w1. subst w1.
  split; [exact diff_cancel|].
  unfold_M. rewrite Hthis. unfold_M. rewrite diff_cancel.
  repeat split.
Qed.

(** Claim C3.  With [tareClock = true] the value returned is computed
    from the reference point held before the call and from the first
    clock sample; the reset then stores a second, later sample in
    [m_begin], and the returned value does not depend on it.  The same
    holds for [elapsedRawNano] and for [elapsed]. *)
Theorem elapsed_tare_old_reference_fresh_sample
    (rtnType : ctype) (precision : Z) (this : nat) (w : World)
    (o : ADVClock) :
  heap w !! this = Some o ->
  let t1 := now_sample (clock_reads w) in
  let t2 := now_sample (S (clock_reads w)) in
  let w' := {| clock_reads := S (S (clock_reads w));
               GLOBAL_CLOCK := GLOBAL_CLOCK w;
               heap := <[this := {| m_begin := t2 |}]> (heap w) |} in
  elapsedRawNanoDur true this w = Some (diff t1 (m_begin o), w') /\
  elapsedRawNano true this w = Some (diff t1 (m_begin o), w') /\
  elapsed rtnType precision true this w =
    defined (RuntimeCast rtnType (diff t1 (m_begin o)) precision) w'.
Proof.
  intros Hthis t1 t2 w'. subst t1 t2 w'.
  unfold_M. rewrite Hthis. unfold_M. rewrite Hthis. unfold_M.
  rewrite diff_cancel. auto.
Qed.

(** [begin] and [now] pass [Precision::Nanoseconds] to [RuntimeCast]
    whatever their argument: the raw count goes through [double] and from
    there to the return type. *)
Lemma begin_now_through_double
    (rtnType : ctype) (precision : Z) (this : nat) (w : World)
    (o : ADVClock) :
  heap w !! this = Some o ->
  begin rtnType precision this w =
    defined (convert rtnType (VDouble (flt_of_Z Binary64
               (diff (m_begin o) (m_begin (GLOBAL_CLOCK w)))))) w /\
  now rtnType precision this w =
    defined (convert rtnType (VDouble (flt_of_Z Binary64
               (diff (now_sample (clock_reads w))
                     (m_begin (GLOBAL_CLOCK w))))))
      {| clock_reads := S (clock_reads w);
         GLOBAL_CLOCK := GLOBAL_CLOCK w;
         heap := heap w |}.
Proof.
  intros Hthis. split.
  - unfold_M. rewrite Hthis.
    rewrite RuntimeCast_Nanoseconds. unfold diff. now rewrite int64_t_idem.
  - unfold_M.
    rewrite RuntimeCast_Nanoseconds. unfold diff. now rewrite int64_t_idem.
Qed.

(** *** Invariance of the process epoch *)

Ltac split_run H :=
  repeat (case_match; simplify_eq); simplify_eq;
  cbn [clock_reads GLOBAL_CLOCK heap m_begin] in *.

Lemma exec_GLOBAL_CLOCK (c : call) (w w' : World) (u : unit) :
  exec c w = Some (u, w') -> GLOBAL_CLOCK w' = GLOBAL_CLOCK w.
Proof.
  intros H. destruct c as [| | | | |b ?|b ?|? ? b ?|]; cbn [exec] in H;
    try destruct b; unfold_M; split_run H; reflexivity.
Qed.

Lemma run_GLOBAL_CLOCK (cs : list call) (w w' : World) (u : unit) :
  run cs w = Some (u, w') -> GLOBAL_CLOCK w' = GLOBAL_CLOCK w.
Proof.
  revert w. induction cs as [|c cs IH]; intros w H; cbn [run] in H.
  - unfold mret, M_ret in H. now simplify_eq.
  - unfold mbind, M_bind in H.
    destruct (exec c w) as [[[] w1]|] eqn:Hc; [|discriminate].
    rewrite (IH _ H). eapply exec_GLOBAL_CLOCK, Hc.
Qed.

Lemma run_app (cs1 cs2 : list call) (w : World) :
  run (cs1 ++ cs2) w = (_ ← run cs1; run cs2) w.
Proof.
  revert w. induction cs1 as [|c cs1 IH]; intros w; [reflexivity|].
  cbn [app run]. unfold mbind, M_bind in *.
  destruct (exec c w) as [[[] w1]|]; [apply IH|reflexivity].
Qed.

(** Claim C7.  The process epoch is captured once, by the initialisation
    of [GLOBAL_CLOCK], which makes the first clock read of the run.  At
    every point of every run (after any prefix [cs1] of the calls made)
    [GLOBAL_CLOCK] still holds that first sample: no construction, query,
    elapsed or tare of any instance writes to it, and it is the value
    that [beginDur] and [nowDur] of every instance subtract. *)
Theorem process_epoch_fixed
    (cs1 cs2 : list call) (u : unit) (w' : World) :
  program (cs1 ++ cs2) = Some (u, w') ->
  init_GLOBAL_CLOCK zero_initialised =
    Some (tt, {| clock_reads := 1;
                 GLOBAL_CLOCK := {| m_begin := now_sample O |};
                 heap := ∅ |}) /\
  GLOBAL_CLOCK w' = {| m_begin := now_sample O |} /\
  exists w1 : World,
    program cs1 = Some (tt, w1) /\
    GLOBAL_CLOCK w1 = {| m_begin := now_sample O |} /\
    (forall this : nat,
        beginDur this w1 =
          (o ← load this; mret (diff (m_begin o) (now_sample O))) w1) /\
    (forall this : nat,
        nowDur this w1 =
          (t ← ClockType_now; mret (diff t (now_sample O))) w1).
Proof.
  unfold program, init_GLOBAL_CLOCK, construct_GLOBAL_CLOCK.
  unfold ClockType_now at 1 2 3.
  unfold mbind at 1 2 3 4 5, M_bind at 1 2 3 4 5.
  cbn [zero_initialised clock_reads heap GLOBAL_CLOCK].
  set (w0 := {| clock_reads := 1;
                GLOBAL_CLOCK := {| m_begin := now_sample O |};
                heap := ∅ |}).
  intros H. split; [reflexivity|].
  pose proof (run_GLOBAL_CLOCK _ _ _ _ H) as Hw'.
  split; [exact Hw'|].
  rewrite run_app in H. unfold mbind, M_bind in H.
  destruct (run cs1 w0) as [[[] w1]|] eqn:H1; [|discriminate].
  pose proof (run_GLOBAL_CLOCK _ _ _ _ H1) as Hw1. cbn in Hw1.
  exists w1. split; [reflexivity|]. split; [exact Hw1|].
  unfold_M. split; intros this.
  - destruct (heap w1 !! this); [|reflexivity]. now rewrite Hw1.
  - now rewrite Hw1.
Qed.

(** *** Frame *)

Lemma alloc_fresh (w : World) (a : nat) (o : ADVClock) :
  heap w !! a = Some o -> fresh (dom (heap w)) <> a.
Proof.
  intros H E. apply (is_fresh (dom (heap w))). rewrite E.
  apply elem_of_dom. eauto.
Qed.

Lemma exec_frame
    (c : call) (w w' : World) (u : unit) (a : nat) (o : ADVClock) :
  exec c w = Some (u, w') ->
  heap w !! a = Some o ->
  assigns c a = false ->
  heap w' !! a = Some o.
Proof.
  intros H Ha Hc.
  destruct c as [| | | | |b ?|b ?|? ? b ?|]; cbn [exec assigns] in H, Hc;
    try destruct b; try apply bool_decide_eq_false in Hc;
    unfold_M; split_run H; cbn [heap];
    rewrite ?lookup_insert_ne by (eauto using alloc_fresh); assumption.
Qed.

Lemma exec_query (c : call) (w w' : World) (u : unit) :
  exec c w = Some (u, w') -> query c = true -> heap w' = heap w.
Proof.
  intros H Hq.
  destruct c as [| | | | |b ?|b ?|? ? b ?|]; cbn [exec query] in H, Hq;
    try destruct b; try discriminate Hq;
    unfold_M; split_run H; reflexivity.
Qed.

Lemma exec_assigns (c : call) (w w' : World) (u : unit) (a : nat) :
  exec c w = Some (u, w') ->
  assigns c a = true ->
  exists k : nat,
    (clock_reads w <= k)%nat /\
    heap w' !! a = Some {| m_begin := now_sample k |}.
Proof.
  intros H Hc.
  destruct c as [| | | | |b ?|b ?|? ? b ?|]; cbn [exec assigns] in H, Hc;
    try destruct b; try discriminate Hc; apply bool_decide_eq_true in Hc;
    unfold_M; split_run H; cbn [heap];
    eexists; (split; [|apply lookup_insert_eq]); lia.
Qed.

(** Claim C8.  A query ([beginDur], [begin], [nowDur], [now], and the
    three elapsed functions called with [tareClock = false]) leaves every
    instance as it was; and whatever the call, an existing instance keeps
    its [m_begin] unless the call is [tare] or an elapsed function with
    [tareClock = true] on that very instance (construction adds an
    instance and changes no other), in which case [m_begin] receives a
    sample that the call reads from the clock.  The conversions
    [RuntimeCast] and [RuntimeCastFromNano] are functions of their
    arguments alone. *)
Theorem queries_leave_reference_point
    (c : call) (w w' : World) (u : unit) :
  exec c w = Some (u, w') ->
  (query c = true -> heap w' = heap w) /\
  (forall (a : nat) (o : ADVClock),
      heap w !! a = Some o -> assigns c a = false ->
      heap w' !! a = Some o) /\
  (forall a : nat,
      assigns c a = true ->
      exists k : nat,
        (clock_reads w <= k)%nat /\
        heap w' !! a = Some {| m_begin := now_sample k |}).
Proof.
  intros H. split; [|split].
  - eapply exec_query, H.
  - intros a o. eapply exec_frame, H.
  - intros a. eapply exec_assigns, H.
Qed.
End StopwatchFacts.

(** ** The conversion routine *)

Section ConversionFacts.
Context {FS : FloatSem}.

Lemma enumerator_spec (precision : Z) :
  enumerator precision = true <-> exists u, precision = Precision_int u.
Proof.
  unfold enumerator. rewrite andb_true_iff, !Z.leb_le. split.
  - intros [H0 H9].
    assert (Hc : precision = 0 \/ precision = 1 \/ precision = 2 \/
                 precision = 3 \/ precision = 4 \/ precision = 5 \/
                 precision = 6 \/ precision = 7 \/ precision = 8 \/
                 precision = 9) by lia.
    destruct Hc as [->|[->|[->|[->|[->|[->|[->|[->|[->| ->]]]]]]]]].
    + now exists Nanoseconds.
    + now exists Microseconds.
    + now exists Milliseconds.
    + now exists Seconds.
    + now exists Minutes.
    + now exists Hours.
    + now exists Days.
    + now exists Weeks.
    + now exists Months.
    + now exists Years.
  - intros [u ->]. destruct u; cbn; lia.
Qed.

(** The [default] label. *)
Lemma RuntimeCastFromNano_default (rtnType : ctype) (d precision : Z) :
  enumerator precision = false ->
  RuntimeCastFromNano rtnType d precision =
  convert rtnType (VInt true W64 (int64_t d)).
Proof.
  unfold enumerator. rewrite andb_false_iff, !Z.leb_gt. intros H.
  destruct precision as [|p|p]; [lia| |reflexivity].
  do 4 (try destruct p as [p|p|]); try reflexivity; lia.
Qed.

Lemma not_enumerator (precision : Z) :
  ~ (0 <= precision <= 9) -> enumerator precision = false.
Proof.
  intros H. unfold enumerator. rewrite andb_false_iff, !Z.leb_gt. lia.
Qed.

(** Claim C4.  For a selector outside [0..9] the conversion is defined
    and returns the raw nanosecond count converted to the return type,
    for every return type and every duration. *)
Theorem RuntimeCastFromNano_unrecognized
    (rtnType : ctype) (d precision : Z) :
  in_int64 d ->
  ~ (0 <= precision <= 9) ->
  RuntimeCastFromNano rtnType d precision =
    convert rtnType (VInt true W64 d) /\
  is_Some (RuntimeCastFromNano rtnType d precision).
Proof.
  intros Hd Hp. apply not_enumerator in Hp.
  rewrite (RuntimeCastFromNano_default _ _ _ Hp).
  rewrite (int64_t_id d Hd). split; [reflexivity|].
  apply convert_int_defined.
Qed.

(** *** The instance [rtnType = double] *)

Lemma double_instance_chain (d : Z) (u : Precision) :
  literals_agree ->
  RuntimeCastFromNano TDouble d (Precision_int u) =
  Some (VDouble (chained_division (int64_t d) u)).
Proof.
  intros (H60 & H24 & H7 & H12).
  destruct u; cbv [Precision_int RuntimeCastFromNano chained_division div_lit];
    cbv [months years weeks days hours mins secs millis micros nanos divb1k
         SecsInMin MinsInHour HoursInDay DaysInWeek DaysInYear MonthsInYear
         odiv cdiv common_type type_of convert div_same
         mbind option_bind];
    rewrite ?H60, ?H24, ?H7, ?H12; reflexivity.
Qed.

Lemma adjacent_ratios_double (d : Z) :
  literals_agree -> adjacent_ratios d.
Proof.
  intros H. unfold adjacent_ratios, convert_double.
  rewrite !(double_instance_chain d _ H).
  cbn [fmap option_fmap option_map chained_division].
  repeat split; eauto.
Qed.
End ConversionFacts.

Lemma IEEE_literals_agree : literals_agree (FS := IEEE).
Proof. repeat split; vm_compute; reflexivity. Qed.

Lemma Exact_literals_agree : literals_agree (FS := Exact).
Proof. repeat split. Qed.

(** Claim C1.  With the return type [double] (IEEE binary64) and for every
    64-bit count [n], each of the ten units returns the value of the
    specification's chain of divisions: [n] as a [double] for Nanoseconds,
    then [/1000.0] three times, [/60.0] twice, [/24.0], and from the days
    [/7.0] for Weeks and [/365.24] for Years, Months being Years [/12.0]. *)
Theorem RuntimeCastFromNano_double_chained (n : Z) (u : Precision) :
  in_int64 n ->
  RuntimeCastFromNano (FS := IEEE) TDouble n (Precision_int u) =
  Some (VDouble (chained_division n u)).
Proof.
  intros Hn.
  rewrite (double_instance_chain n u IEEE_literals_agree).
  now rewrite (int64_t_id n Hn).
Qed.

(** Claim C5.  For every duration (negative ones included) the converted
    values of adjacent units are in the fixed ratios 1000, 1000, 1000, 60,
    60, 24, then 7 (Weeks from Days), 365.24 (Years from Days) and 12
    (Months from Years): with exact rational arithmetic, and also with IEEE
    arithmetic when the quotient is the IEEE division of binary64. *)
Theorem adjacent_units_fixed_ratios (d : Z) :
  adjacent_ratios (FS := Exact) d /\ adjacent_ratios (FS := IEEE) d.
Proof.
  split; apply adjacent_ratios_double.
  - exact Exact_literals_agree.
  - exact IEEE_literals_agree.
Qed.

(** *** Exact arithmetic *)

Lemma Exact_of_Z_opp (f : fmt) (z : Z) :
  flt_of_Z (FloatSem := Exact) f (- z) = (- flt_of_Z (FloatSem := Exact) f z)%Qc.
Proof.
  cbn [flt_of_Z Exact]. apply Qc_is_canon.
  unfold Qcopp, Q2Qc; cbn [this].
  rewrite !Qred_correct.
  unfold inject_Z, Qopp, Qeq; cbn. reflexivity.
Qed.

Lemma Exact_div_opp (x : Qc) (q : Q) :
  div_lit (FS := Exact) (- x)%Qc q = (- div_lit (FS := Exact) x q)%Qc.
Proof.
  unfold div_lit; cbn [flt_div flt_lit Exact].
  change ((- x / Q2Qc q)%Qc = (- (x / Q2Qc q))%Qc :> Qc).
  unfold Qcdiv. ring.
Qed.

Lemma chained_division_odd (n : Z) (u : Precision) :
  chained_division (FS := Exact) (- n) u =
  (- chained_division (FS := Exact) n u)%Qc.
Proof.
  destruct u; cbv [chained_division];
    rewrite Exact_of_Z_opp, ?Exact_div_opp; reflexivity.
Qed.

(** Claim C10.  Nothing guards against a negative duration: with the
    return type [double] and exact rational arithmetic, for every selector
    (the ten units and the fallback) and every duration [d] such that [- d]
    is a duration too, the conversion of [- d] is the opposite of the
    conversion of [d]. *)
Theorem conversion_odd (d precision : Z) :
  in_int64 d ->
  in_int64 (- d) ->
  exists x : Qc,
    RuntimeCastFromNano (FS := Exact) TDouble d precision =
      Some (VDouble x) /\
    RuntimeCastFromNano (FS := Exact) TDouble (- d) precision =
      Some (VDouble (- x)%Qc).
Proof.
  intros Hd Hd'.
  destruct (enumerator precision) eqn:Hp.
  - apply enumerator_spec in Hp as [u ->].
    exists (chained_division (FS := Exact) d u).
    rewrite !(double_instance_chain _ _ Exact_literals_agree).
    rewrite (int64_t_id _ Hd), (int64_t_id _ Hd').
    now rewrite chained_division_odd.
  - exists (flt_of_Z (FloatSem := Exact) Binary64 d).
    rewrite !(RuntimeCastFromNano_default _ _ _ Hp).
    rewrite (int64_t_id _ Hd), (int64_t_id _ Hd').
    cbn [convert]. now rewrite Exact_of_Z_opp.
Qed.

Lemma chained_division_closed_form (d : Z) (u : Precision) :
  chained_division (FS := Exact) d u =
  (Q2Qc (inject_Z d) / Q2Qc (unit_ns u))%Qc.
Proof.
  destruct u; cbv [chained_division div_lit unit_ns];
    cbn [flt_div flt_lit flt_of_Z Exact];
    apply Qc_is_canon;
    unfold Qcdiv, Qcmult, Qcinv, Q2Qc; cbn [this];
    rewrite !Qred_correct; field.
Qed.

(** X8.  In exact arithmetic the conversion to [double] divides the count
    by the number of nanoseconds of the unit, a year being 365.24 days;
    the divisor of Months is twelve times the divisor of Years, so the
    Months value is the twelfth part of the Years value. *)
Lemma Exact_closed_form (d : Z) (u : Precision) :
  in_int64 d ->
  convert_double (FS := Exact) d u =
  Some (Q2Qc (inject_Z d) / Q2Qc (unit_ns u))%Qc.
Proof.
  intros Hd. unfold convert_double.
  rewrite (double_instance_chain _ _ Exact_literals_agree).
  now rewrite (int64_t_id d Hd), chained_division_closed_form.
Qed.

(** *** IEEE arithmetic *)

Lemma binary_round_aux_opp (p e : Z) (mx ex : Z) (lx : location) :
  binary_round_aux p e true mx ex lx =
  SFopp (binary_round_aux p e false mx ex lx).
Proof.
  unfold binary_round_aux.
  destruct (shr_fexp p e mx ex lx) as [mrs' e'].
  destruct (shr_fexp p e _ e' loc_Exact) as [mrs'' e''].
  destruct (shr_m mrs''); [reflexivity| |reflexivity].
  destruct (e'' <=? e - p); reflexivity.
Qed.

Lemma binary_round_opp (p e : Z) (m : positive) (ex : Z) :
  binary_round p e true m ex = SFopp (binary_round p e false m ex).
Proof.
  unfold binary_round.
  destruct (shl_align m ex _) as [mz ez]. apply binary_round_aux_opp.
Qed.

Lemma ieee_of_Z_opp (f : fmt) (z : Z) :
  z <> 0 -> ieee_of_Z f (- z) = SFopp (ieee_of_Z f z).
Proof.
  intros Hz. unfold ieee_of_Z, binary_normalize.
  destruct z as [|m|m]; [congruence| |].
  - change (- Z.pos m) with (Z.neg m). apply binary_round_opp.
  - change (- Z.neg m) with (Z.pos m). rewrite binary_round_opp.
    now destruct (binary_round _ _ false m 0) as [[]|[]| |[] ? ?].
Qed.

Lemma ieee_div_opp (f : fmt) (x y : spec_float) :
  ieee_div f (SFopp x) y = SFopp (ieee_div f x y).
Proof.
  unfold ieee_div.
  destruct x as [sx|sx| |sx mx ex], y as [sy|sy| |sy my ey];
    cbn [SFopp SFdiv]; try reflexivity; try (destruct sx, sy; reflexivity).
  destruct (SFdiv_core_binary _ _ _ _ _ _) as [[mz ez] lz].
  destruct sx, sy; cbn [xorb negb];
    rewrite ?binary_round_aux_opp;
    try reflexivity;
    now destruct (binary_round_aux _ _ false mz ez lz) as [[]|[]| |[] ? ?].
Qed.

Lemma chained_division_odd_IEEE (n : Z) (u : Precision) :
  n <> 0 ->
  chained_division (FS := IEEE) (- n) u =
  SFopp (chained_division (FS := IEEE) n u).
Proof.
  intros Hn.
  destruct u; cbv [chained_division div_lit];
    cbn [flt_of_Z flt_div IEEE];
    rewrite (ieee_of_Z_opp _ _ Hn), ?ieee_div_opp; reflexivity.
Qed.

(** X9.  With IEEE arithmetic too the conversion of a non-zero duration is
    odd, bit for bit: every unit of [- d] is the unit of [d] with the sign
    flipped (a zero duration gives [+0.0] on both sides). *)
Lemma IEEE_opposite_duration (d : Z) (u : Precision) :
  in_int64 d -> in_int64 (- d) -> d <> 0 ->
  convert_double (FS := IEEE) (- d) u =
  SFopp <$> convert_double (FS := IEEE) d u.
Proof.
  intros Hd Hd' Hz. unfold convert_double.
  rewrite !(double_instance_chain _ _ IEEE_literals_agree).
  rewrite (int64_t_id _ Hd), (int64_t_id _ Hd').
  cbn [fmap option_fmap option_map].
  now rewrite chained_division_odd_IEEE.
Qed.

(** *** The example scenarios of the specification *)

Example one_minute :
  convert_double (FS := IEEE) 60000000000 Minutes =
  Some (ieee_of_Z Binary64 1).
Proof. vm_compute. reflexivity. Qed.

Example one_hour :
  convert_double (FS := IEEE) 3600000000000 Hours =
  Some (ieee_of_Z Binary64 1).
Proof. vm_compute. reflexivity. Qed.

Example one_day :
  convert_double (FS := IEEE) 86400000000000 Days =
  Some (ieee_of_Z Binary64 1).
Proof. vm_compute. reflexivity. Qed.

(** A count above [2 ^ 53] is rounded by the conversion to [double]. *)
Example nanoseconds_rounded :
  convert_double (FS := IEEE) (2 ^ 53 + 1) Nanoseconds =
  convert_double (FS := IEEE) (2 ^ 53) Nanoseconds.
Proof. vm_compute. reflexivity. Qed.

(** The literal [365.24] is the [double] of bit pattern
    [0x4076D3D70A3D70A4]. *)
Example DaysInYear_bits :
  flt_lit (FloatSem := IEEE) (36524 # 100) =
  S754_finite false 0x16D3D70A3D70A4 (-44).
Proof. vm_compute. reflexivity. Qed.

(** *** A zero duration *)

Lemma zero_default {FS : FloatSem} (rtnType : ctype) (precision : Z) :
  enumerator precision = false ->
  RuntimeCastFromNano rtnType 0 precision = Some (zero rtnType).
Proof.
  intros Hp. rewrite (RuntimeCastFromNano_default _ _ _ Hp).
  destruct rtnType as [|[] []| |]; reflexivity.
Qed.

Lemma Exact_value_eq (x y : Qc) :
  Qeq_bool x y = true ->
  Some (VDouble x) = Some (VDouble y) /\
  Some (VFloat x) = Some (VFloat y).
Proof.
  intros H. apply Qeq_bool_eq, Qc_is_canon in H. now subst.
Qed.

Ltac zero_case Hp :=
  first
    [ vm_compute; reflexivity
    | destruct Hp as [Hp|Hp]; [discriminate Hp | exfalso; apply Hp; cbn; lia] ].

Lemma zero_IEEE (rtnType : ctype) (precision : Z) :
  holds_1000 rtnType = true \/ ~ (1 <= precision <= 9) ->
  RuntimeCastFromNano (FS := IEEE) rtnType 0 precision = Some (zero rtnType).
Proof.
  intros Hp. destruct (enumerator precision) eqn:He.
  - apply enumerator_spec in He as [u ->].
    destruct u, rtnType as [|[] []| |]; zero_case Hp.
  - now apply zero_default.
Qed.

Lemma zero_Exact (rtnType : ctype) (precision : Z) :
  holds_1000 rtnType = true \/ ~ (1 <= precision <= 9) ->
  RuntimeCastFromNano (FS := Exact) rtnType 0 precision = Some (zero rtnType).
Proof.
  intros Hp. destruct (enumerator precision) eqn:He.
  - apply enumerator_spec in He as [u ->].
    destruct u, rtnType as [|[] []| |];
      first
        [ zero_case Hp
        | vm_compute;
          first [ apply Exact_value_eq | apply (Exact_value_eq _ _) ];
          reflexivity ].
  - now apply zero_default.
Qed.

(** X17.  [RuntimeCastFromNano] converts a zero duration to the zero of
    the return type for every selector, provided the return type can hold
    the divisor [rtnType(1000.0)] (every arithmetic type but the 8-bit
    integers); with an 8-bit integer return type this holds for
    Nanoseconds and for the selectors outside [0..9], the only ones that
    do not evaluate the divisor.  Both arithmetics agree. *)
Theorem zero_converts_to_zero (rtnType : ctype) (precision : Z) :
  holds_1000 rtnType = true \/ ~ (1 <= precision <= 9) ->
  RuntimeCastFromNano (FS := IEEE) rtnType 0 precision =
    Some (zero rtnType) /\
  RuntimeCastFromNano (FS := Exact) rtnType 0 precision =
    Some (zero rtnType).
Proof.
  intros H. split; [now apply zero_IEEE | now apply zero_Exact].
Qed.

(** Claim C9.  The code at the input where the claim fails: with the
    return type [signed char], [RuntimeCastFromNano] evaluates the divisor
    [rtnType(1000.0)], a conversion of 1000.0 to a type that cannot
    represent it, undefined by [conv.fpint], so the conversion of a zero
    duration to microseconds has no defined value; the same call with a
    16-bit return type returns zero, and so does the sibling [RuntimeCast]
    with [signed char] itself, which divides in [double]. *)
Theorem zero_undefined_for_signed_char :
  RuntimeCastFromNano (FS := IEEE) (TInt true W8) 0
    (Precision_int Microseconds) = None /\
  RuntimeCastFromNano (FS := IEEE) (TInt true W16) 0
    (Precision_int Microseconds) = Some (VInt true W16 0) /\
  RuntimeCast (FS := IEEE) (TInt true W8) 0
    (Precision_int Microseconds) = Some (VInt true W8 0).
Proof. repeat split. Qed.

(** ** Instances of the theorems on concrete inputs *)

Lemma RuntimeCastFromNano_double_chained_witness :
  in_int64 60000000000 /\
  RuntimeCastFromNano (FS := IEEE) TDouble 60000000000
    (Precision_int Minutes) =
  Some (VDouble (chained_division 60000000000 Minutes)).
Proof.
  assert (H : in_int64 60000000000) by (unfold in_int64; lia).
  split; [exact H|].
  exact (RuntimeCastFromNano_double_chained 60000000000 Minutes H).
Defined.

Lemma elapsedRawNanoDur_refines_direct_witness :
  heap demo_world !! O = Some {| m_begin := 1250 |} /\
  elapsedRawNanoDur (CT := demo_clock) false O demo_world =
    Some (250,
          {| clock_reads := 3;
             GLOBAL_CLOCK := {| m_begin := 1000 |};
             heap := heap demo_world |}).
Proof.
  assert (H : heap demo_world !! O = Some {| m_begin := 1250 |})
    by reflexivity.
  split; [exact H|].
  exact (proj2 (proj2 (proj2 (elapsedRawNanoDur_refines_direct
                  (CT := demo_clock) false O demo_world _ H)))).
Defined.

Lemma elapsed_tare_old_reference_fresh_sample_witness :
  heap demo_world !! O = Some {| m_begin := 1250 |} /\
  elapsedRawNanoDur (CT := demo_clock) true O demo_world =
    Some (250,
          {| clock_reads := 4;
             GLOBAL_CLOCK := {| m_begin := 1000 |};
             heap := <[O := {| m_begin := 1750 |}]> (heap demo_world) |}).
Proof.
  assert (H : heap demo_world !! O = Some {| m_begin := 1250 |})
    by reflexivity.
  split; [exact H|].
  exact (proj1 (elapsed_tare_old_reference_fresh_sample
                  (FS := IEEE) (CT := demo_clock)
                  TDouble 0 O demo_world _ H)).
Defined.

Lemma RuntimeCastFromNano_unrecognized_witness :
  RuntimeCastFromNano (FS := IEEE) (TInt true W8) 1000 77 =
    Some (VInt true W8 (-24)) /\
  is_Some (RuntimeCastFromNano (FS := IEEE) (TInt true W8) 1000 77).
Proof.
  apply (RuntimeCastFromNano_unrecognized (FS := IEEE) (TInt true W8) 1000 77).
  - unfold in_int64; lia.
  - lia.
Defined.

Lemma process_epoch_fixed_witness :
  GLOBAL_CLOCK
    (final (FS := IEEE) (CT := demo_clock)
       ([Call_new; Call_elapsed TDouble 1 true O] ++ [Call_tare O])) =
  {| m_begin := 1000 |}.
Proof.
  refine (proj1 (proj2 (process_epoch_fixed (FS := IEEE) (CT := demo_clock)
            [Call_new; Call_elapsed TDouble 1 true O] [Call_tare O] tt _ _))).
  vm_compute. reflexivity.
Defined.

Lemma queries_leave_reference_point_witness :
  heap (final (FS := IEEE) (CT := demo_clock)
          [Call_new; Call_elapsed TDouble 4 false O]) !! O =
  Some {| m_begin := 1250 |}.
Proof.
  refine (proj1 (proj2 (queries_leave_reference_point
            (FS := IEEE) (CT := demo_clock)
            (Call_elapsed TDouble 4 false O) demo_world _ tt _)) O _ _ _).
  - vm_compute. reflexivity.
  - reflexivity.
  - reflexivity.
Defined.

Lemma zero_converts_to_zero_witness :
  RuntimeCastFromNano (FS := IEEE) (TInt true W16) 0 (Precision_int Years) =
    Some (VInt true W16 0) /\
  RuntimeCastFromNano (FS := Exact) (TInt true W16) 0 (Precision_int Years) =
    Some (VInt true W16 0).
Proof.
  apply (zero_converts_to_zero (TInt true W16) (Precision_int Years)).
  left. reflexivity.
Defined.

Lemma conversion_odd_witness :
  exists x : Qc,
    RuntimeCastFromNano (FS := Exact) TDouble 5000000000
      (Precision_int Seconds) = Some (VDouble x) /\
    RuntimeCastFromNano (FS := Exact) TDouble (- 5000000000)
      (Precision_int Seconds) = Some (VDouble (- x)%Qc).
Proof.
  apply (conversion_odd 5000000000 (Precision_int Seconds));
    unfold in_int64; lia.
Defined.

(** ** More on the stopwatch *)

Section StopwatchMore.
Context {FS : FloatSem} {CT : ClockType}.

Ltac unfold_calls :=
  unfold elapsed, elapsedRawNano, elapsedRawNanoDur, tare,
    now, nowDur, begin, beginDur, ADVClock_new, alloc, defined,
    load_GLOBAL_CLOCK, store, load, ClockType_now,
    mbind, M_bind, mret, M_ret in *;
  cbn [clock_reads GLOBAL_CLOCK heap m_begin] in *.

Ltac split_calls :=
  repeat (case_match; simplify_eq); simplify_eq;
  cbn [clock_reads GLOBAL_CLOCK heap m_begin] in *.

Lemma exec_sampled (c : call) (w w' : World) (u : unit) :
  exec c w = Some (u, w') -> sampled w -> sampled w'.
Proof.
  intros H (Hg & H1 & Hh).
  assert (Hup : forall n : nat, (clock_reads w <= n)%nat ->
            forall (a : nat) (o : ADVClock), heap w !! a = Some o ->
            exists k : nat, (k < n)%nat /\ m_begin o = now_sample k).
  { intros n Hn a o Ha. destruct (Hh a o Ha) as (k & Hk & E).
    exists k. split; [lia|exact E]. }
  destruct c as [| | | | |b ?|b ?|? ? b ?|]; cbn [exec] in H;
    try destruct b; unfold_calls; split_calls;
    unfold sampled; cbn [clock_reads GLOBAL_CLOCK heap m_begin];
    (split; [assumption|]); (split; [lia|]);
    intros x ox Hx;
    try (apply lookup_insert_Some in Hx as [[<- <-]|[_ Hx]]; cbn [m_begin];
         [eexists; split; [|reflexivity]; lia|]);
    (eapply Hup; [|exact Hx]; lia).
Qed.

Lemma run_sampled (cs : list call) (w w' : World) (u : unit) :
  run cs w = Some (u, w') -> sampled w -> sampled w'.
Proof.
  revert w. induction cs as [|c cs IH]; intros w H Hw; cbn [run] in H.
  - unfold mret, M_ret in H. now simplify_eq.
  - unfold mbind, M_bind in H.
    destruct (exec c w) as [[[] w1]|] eqn:Hc; [|discriminate].
    eapply IH; [exact H|]. eapply exec_sampled; eauto.
Qed.

Lemma program_sampled (cs : list call) (w : World) (u : unit) :
  program cs = Some (u, w) -> sampled w.
Proof.
  unfold program, init_GLOBAL_CLOCK, construct_GLOBAL_CLOCK.
  unfold ClockType_now at 1. unfold mbind at 1 2, M_bind at 1 2.
  cbn [zero_initialised clock_reads heap GLOBAL_CLOCK]. intros H.
  eapply run_sampled; [exact H|].
  split; [reflexivity|]. split; [cbn; lia|].
  cbn [heap]. intros a o Ha. now rewrite lookup_empty in Ha.
Qed.

(** X1.  On a steady clock no measurement of a run wraps or is negative:
    for every instance, [beginDur] is its reference point minus the epoch
    and [elapsedRawNanoDur] is the clock sample minus its reference point,
    as exact integers, and both are at least zero. *)
Theorem steady_measurements_nonnegative
    (cs : list call) (u : unit) (w : World) (this : nat) (o : ADVClock)
    (tareClock : bool) :
  steady CT ->
  program cs = Some (u, w) ->
  heap w !! this = Some o ->
  beginDur this w = Some (m_begin o - now_sample O, w) /\
  0 <= m_begin o - now_sample O /\
  (exists w' : World,
      elapsedRawNanoDur tareClock this w =
        Some (now_sample (clock_reads w) - m_begin o, w')) /\
  0 <= now_sample (clock_reads w) - m_begin o.
Proof.
  intros [Hmono Hbound] Hrun Hthis.
  destruct (program_sampled _ _ _ Hrun) as (Hg & H1 & Hh).
  destruct (Hh _ _ Hthis) as (k & Hk & Ek).
  pose proof (Hmono O k ltac:(lia)) as H0k.
  pose proof (Hmono k (clock_reads w) ltac:(lia)) as Hkn.
  pose proof (Hbound O) as B0. pose proof (Hbound (clock_reads w)) as Bn.
  destruct (diff_ordered (now_sample (clock_reads w)) (m_begin o)
              (now_sample O)) as (E1 & E2 & E3 & E4); try lia.
  destruct tareClock; unfold_calls; rewrite Hthis, Hg; unfold_calls;
    rewrite ?Hthis; rewrite E3, E2; repeat split; eauto; lia.
Qed.
(** X2.  A reset zeroes the stopwatch: whatever the reference point and
    the epoch were, the elapsed time read right after [tare] is the
    difference of the two clock samples, the one of the read and the one
    of the reset. *)
Theorem tare_then_elapsed (this : nat) (w : World) (o : ADVClock) :
  heap w !! this = Some o ->
  (_ ← tare this; elapsedRawNanoDur false this) w =
  Some (diff (now_sample (S (clock_reads w))) (now_sample (clock_reads w)),
        {| clock_reads := S (S (clock_reads w));
           GLOBAL_CLOCK := GLOBAL_CLOCK w;
           heap := <[this := {| m_begin := now_sample (clock_reads w) |}]>
                     (heap w) |}).
Proof.
  intros Hthis. unfold_calls. rewrite Hthis. unfold_calls.
  rewrite lookup_insert_eq. unfold_calls. now rewrite diff_cancel.
Qed.

(** X3.  Two laps taken with [elapsedRawNanoDur(true)] read the clock
    four times.  The first lap runs from the old reference point to the
    first sample, the second from the second sample (the reset of the
    first call) to the third: the time between the measuring read and the
    resetting read of a call belongs to no lap.  The instance is left
    with the fourth sample. *)
Theorem two_laps (this : nat) (w : World) (o : ADVClock) :
  heap w !! this = Some o ->
  let s := fun i : nat => now_sample (i + clock_reads w) in
  (d1 ← elapsedRawNanoDur true this;
   d2 ← elapsedRawNanoDur true this;
   mret (d1, d2)) w =
  Some ((diff (s 0%nat) (m_begin o), diff (s 2%nat) (s 1%nat)),
        {| clock_reads := 4 + clock_reads w;
           GLOBAL_CLOCK := GLOBAL_CLOCK w;
           heap := <[this := {| m_begin := s 3%nat |}]> (heap w) |}).
Proof.
  intros Hthis s. subst s. cbn [Nat.add].
  unfold_calls. rewrite Hthis. unfold_calls. rewrite Hthis. unfold_calls.
  rewrite !lookup_insert_eq. unfold_calls. rewrite !lookup_insert_eq.
  unfold_calls. rewrite !diff_cancel, insert_insert_eq. reflexivity.
Qed.

(** X4.  [elapsedRawNano] and [elapsedRawNanoDur] are the same
    computation: same count, same reset, same clock reads. *)
Theorem elapsedRawNano_elapsedRawNanoDur
    (tareClock : bool) (this : nat) (w : World) :
  elapsedRawNano tareClock this w = elapsedRawNanoDur tareClock this w.
Proof.
  unfold_calls. destruct (heap w !! this) as [o|] eqn:Hthis; [|reflexivity].
  destruct tareClock; unfold_calls; rewrite ?Hthis; reflexivity.
Qed.

(** X6.  A new instance measures from its construction: the elapsed time
    read right after the constructor is the difference of the two
    samples, and the instance sits at an address that was not in use. *)
Theorem new_then_elapsed (w : World) :
  let this := fresh (dom (heap w)) in
  heap w !! this = None /\
  (this ← ADVClock_new; d ← elapsedRawNanoDur false this; mret (this, d)) w =
  Some ((this,
         diff (now_sample (S (clock_reads w))) (now_sample (clock_reads w))),
        {| clock_reads := S (S (clock_reads w));
           GLOBAL_CLOCK := GLOBAL_CLOCK w;
           heap := <[this := {| m_begin := now_sample (clock_reads w) |}]>
                     (heap w) |}).
Proof.
  intros this. split.
  - apply not_elem_of_dom, is_fresh.
  - subst this. unfold_calls. rewrite lookup_insert_eq. unfold_calls.
    now rewrite diff_cancel.
Qed.

Lemma exec_reads (c : call) (w w' : World) (u : unit) :
  exec c w = Some (u, w') ->
  clock_reads w' = (clock_reads w + reads_of c)%nat.
Proof.
  intros H.
  destruct c as [| | | | |b ?|b ?|? ? b ?|]; cbn [exec reads_of] in *;
    try destruct b; unfold_calls; split_calls; lia.
Qed.

Lemma run_reads (cs : list call) (w w' : World) (u : unit) :
  run cs w = Some (u, w') ->
  clock_reads w' = (clock_reads w + sum_list (reads_of <$> cs))%nat.
Proof.
  revert w. induction cs as [|c cs IH]; intros w H; cbn [run] in H.
  - unfold mret, M_ret in H. simplify_eq. cbn. lia.
  - unfold mbind, M_bind in H.
    destruct (exec c w) as [[[] w1]|] eqn:Hc; [|discriminate].
    rewrite (IH _ H), (exec_reads _ _ _ _ Hc). cbn. lia.
Qed.

(** X7.  The clock is read a fixed number of times: once by the
    constructor, by [nowDur], [now], [tare] and an elapsed function
    without reset, twice by an elapsed function that resets, never by
    [beginDur] and [begin]; a whole run makes one read for the epoch and
    then the sum of the reads of its calls. *)
Theorem clock_reads_of_program (cs : list call) (w : World) (u : unit) :
  program cs = Some (u, w) ->
  clock_reads w = S (sum_list (reads_of <$> cs)).
Proof.
  unfold program, init_GLOBAL_CLOCK, construct_GLOBAL_CLOCK.
  unfold ClockType_now at 1. unfold mbind at 1 2, M_bind at 1 2.
  cbn [zero_initialised clock_reads heap GLOBAL_CLOCK]. intros H.
  now rewrite (run_reads _ _ _ _ H).
Qed.

(** X15.  On a steady clock the uptime never goes backwards: [nowDur]
    called at a later point of a run returns at least what it returned
    earlier, whatever calls were made in between and on whatever
    instances, and it is never negative. *)
Theorem uptime_never_decreases
    (cs1 cs2 : list call) (u1 u2 : unit) (w1 w2 : World)
    (this1 this2 : nat) :
  steady CT ->
  program cs1 = Some (u1, w1) ->
  run cs2 w1 = Some (u2, w2) ->
  exists (d1 d2 : Z) (w1' w2' : World),
    nowDur this1 w1 = Some (d1, w1') /\
    nowDur this2 w2 = Some (d2, w2') /\
    0 <= d1 <= d2.
Proof.
  intros [Hmono Hbound] H1 H2.
  destruct (program_sampled _ _ _ H1) as (Hg1 & _ & _).
  pose proof (run_GLOBAL_CLOCK _ _ _ _ H2) as Hg2. rewrite Hg1 in Hg2.
  pose proof (run_reads _ _ _ _ H2) as Hr.
  pose proof (Hmono O (clock_reads w1) ltac:(lia)) as Ha.
  pose proof (Hmono (clock_reads w1) (clock_reads w2) ltac:(lia)) as Hb.
  pose proof (Hbound O) as B0.
  pose proof (Hbound (clock_reads w1)) as B1.
  pose proof (Hbound (clock_reads w2)) as B2.
  unfold_calls. rewrite Hg1, Hg2. cbn [m_begin].
  rewrite !diff_exact by (unfold in_int64; lia).
  do 4 eexists. split; [reflexivity|]. split; [reflexivity|]. lia.
Qed.

(** X16.  On a steady clock a reset can only shorten the next reading:
    the elapsed time read after [tare] is at most the elapsed time read
    at the same moment without the reset, and it is not negative. *)
Theorem reset_shortens_reading
    (cs : list call) (u : unit) (w : World) (this : nat) (o : ADVClock) :
  steady CT ->
  program cs = Some (u, w) ->
  heap w !! this = Some o ->
  exists (d_reset d_plain : Z) (w1 w2 : World),
    (_ ← tare this; elapsedRawNanoDur false this) w = Some (d_reset, w1) /\
    (_ ← nowDur this; elapsedRawNanoDur false this) w =
      Some (d_plain, w2) /\
    clock_reads w1 = clock_reads w2 /\
    0 <= d_reset <= d_plain.
Proof.
  intros [Hmono Hbound] Hrun Hthis.
  destruct (program_sampled _ _ _ Hrun) as (Hg & H1 & Hh).
  destruct (Hh _ _ Hthis) as (k & Hk & Ek).
  pose proof (Hmono k (clock_reads w) ltac:(lia)).
  pose proof (Hmono (clock_reads w) (S (clock_reads w)) ltac:(lia)).
  pose proof (Hbound k). pose proof (Hbound (clock_reads w)).
  pose proof (Hbound (S (clock_reads w))).
  do 3 (unfold_calls; rewrite ?Hthis, ?lookup_insert_eq).
  rewrite !diff_cancel, !diff_exact by (unfold in_int64; lia).
  do 4 eexists. split; [reflexivity|]. split; [reflexivity|].
  cbn [clock_reads]. split; [reflexivity|]. lia.
Qed.
End StopwatchMore.

(** ** Integral return types *)

Lemma quot_in_int64 (x k : Z) : in_int64 x -> 0 < k -> in_int64 (Z.quot x k).
Proof.
  unfold in_int64. intros Hx Hk.
  destruct (Z.le_gt_cases 0 x) as [H0|H0].
  - rewrite Z.quot_div_nonneg by lia.
    pose proof (Z.div_pos x k H0 Hk).
    assert (x / k <= x) by (apply Z.div_le_upper_bound; nia). lia.
  - replace x with (- (- x)) by lia. rewrite Z.quot_opp_l by lia.
    rewrite Z.quot_div_nonneg by lia.
    pose proof (Z.div_pos (- x) k ltac:(lia) Hk).
    assert (- x / k <= - x) by (apply Z.div_le_upper_bound; nia). lia.
Qed.

Lemma in_range_int64 (z : Z) : in_int64 z -> in_range true W64 z = true.
Proof.
  unfold in_int64, in_range, int_min, int_max; cbn [bits].
  change (64 - 1) with 63. intros H.
  apply andb_true_iff. rewrite !Z.leb_le. lia.
Qed.

Section IntegralFacts.
Context {FS : FloatSem}.

(** [x / k] on an [int64_t] and a small positive integer constant of a
    type other than the unsigned 64-bit one: 64-bit signed division. *)
Lemma odiv_int64 (x k : Z) (s : bool) (w : width) :
  in_int64 x -> 0 < k < 2 ^ 15 -> (s || negb (bits w =? 64)) = true ->
  odiv (Some (VInt true W64 x)) (Some (VInt s w k)) =
  Some (VInt true W64 (Z.quot x k)).
Proof.
  intros Hx Hk Hsw.
  assert (Hk64 : wrap true W64 k = k)
    by (apply int64_t_id; unfold in_int64; lia).
  assert (Hk0 : (k =? 0) = false) by (apply Z.eqb_neq; lia).
  assert (Hq : in_range true W64 (Z.quot x k) = true)
    by (apply in_range_int64, quot_in_int64; [assumption|lia]).
  unfold odiv, cdiv. cbn [mbind option_bind type_of].
  destruct s, w; try discriminate Hsw;
    cbn [common_type promote Bool.eqb wider bits Z.ltb Z.leb Z.compare
         Pos.compare Pos.compare_cont convert mbind option_bind div_same];
    rewrite ?Hk64, ?(int64_t_id x Hx : wrap true W64 x = x), Hk0, Hq;
    reflexivity.
Qed.

(** The three divisions by [rtnType(1000.0)] and the divisions by the
    [int] constants, for an integral return type that holds 1000 and is
    not the unsigned 64-bit type. *)
Lemma integral_chain (s : bool) (w : width) (n : Z) (u : Precision) :
  literal_1000 ->
  in_int64 n ->
  holds_1000 (TInt s w) = true ->
  (s || negb (bits w =? 64)) = true ->
  whole_unit u = true ->
  RuntimeCastFromNano (TInt s w) n (Precision_int u) =
  Some (VInt s w (wrap s w (Z.quot n (unit_count u)))).
Proof.
  intros H1000 Hn Hw Hsw Hu.
  assert (Hdiv : convert (TInt s w) (VDouble (flt_lit (1000 # 1))) =
                 Some (VInt s w 1000)).
  { cbn [convert]. unfold float_to_int. rewrite H1000.
    destruct s, w; try discriminate Hw; reflexivity. }
  assert (Hk : forall x k, in_int64 x -> 0 < k < 2 ^ 15 ->
             odiv (Some (VInt true W64 x)) (Some (VInt true W32 k)) =
             Some (VInt true W64 (Z.quot x k))).
  { intros x k Hx Hk. now apply odiv_int64. }
  assert (Hb : forall x, in_int64 x ->
             divb1k (TInt s w) (Some (VInt true W64 x)) =
             Some (VInt true W64 (Z.quot x 1000))).
  { intros x Hx. unfold divb1k. rewrite Hdiv. apply odiv_int64; auto; lia. }
  assert (Hq : forall x k, in_int64 x -> 0 < k -> in_int64 (Z.quot x k))
    by apply quot_in_int64.
  unfold RuntimeCastFromNano.
  destruct u; try discriminate Hu; cbn [Precision_int];
    unfold weeks, days, hours, mins, secs, millis, micros, nanos,
      SecsInMin, MinsInHour, HoursInDay, DaysInWeek;
    rewrite (int64_t_id n Hn);
    rewrite ?Hb, ?Hk by (repeat apply Hq; auto; lia);
    cbn [mbind option_bind convert];
    rewrite ?Z.quot_quot by lia;
    try (rewrite Z.quot_1_r); reflexivity.
Qed.
(** [x / k] on an unsigned 64-bit value and a small positive integer
    constant of any type: unsigned division. *)
Lemma odiv_uint64 (x k : Z) (s : bool) (w : width) :
  0 <= x < 2 ^ 64 -> 0 < k < 2 ^ 15 ->
  odiv (Some (VInt false W64 x)) (Some (VInt s w k)) =
  Some (VInt false W64 (Z.quot x k)).
Proof.
  intros Hx Hk.
  assert (Hk64 : wrap false W64 k = k)
    by (unfold wrap; cbn [bits]; apply Z.mod_small; lia).
  assert (Hx64 : wrap false W64 x = x)
    by (unfold wrap; cbn [bits]; apply Z.mod_small; lia).
  assert (Hk0 : (k =? 0) = false) by (apply Z.eqb_neq; lia).
  assert (Hq : in_range false W64 (Z.quot x k) = true).
  { unfold in_range, int_min, int_max; cbn [bits].
    rewrite Z.quot_div_nonneg by lia.
    pose proof (Z.div_pos x k ltac:(lia) ltac:(lia)).
    assert (x / k <= x) by (apply Z.div_le_upper_bound; nia).
    apply andb_true_iff. rewrite !Z.leb_le. lia. }
  unfold odiv, cdiv. cbn [mbind option_bind type_of].
  destruct s, w;
    cbn [common_type promote Bool.eqb wider bits Z.ltb Z.leb Z.compare
         Pos.compare Pos.compare_cont convert mbind option_bind div_same];
    rewrite ?Hk64, ?Hx64, Hk0, Hq; reflexivity.
Qed.

Lemma quot_in_uint64 (x k : Z) :
  0 <= x < 2 ^ 64 -> 0 < k -> 0 <= Z.quot x k < 2 ^ 64.
Proof.
  intros Hx Hk. rewrite Z.quot_div_nonneg by lia.
  pose proof (Z.div_pos x k ltac:(lia) Hk).
  assert (x / k <= x) by (apply Z.div_le_upper_bound; nia). lia.
Qed.

(** The same chain for the unsigned 64-bit return type: the count is
    first converted to it, modulo [2 ^ 64]. *)
Lemma unsigned_chain (n : Z) (u : Precision) :
  literal_1000 ->
  in_int64 n ->
  whole_unit u = true ->
  RuntimeCastFromNano (TInt false W64) n (Precision_int u) =
  Some (VInt false W64 (Z.quot (n mod 2 ^ 64) (unit_count u))).
Proof.
  intros H1000 Hn Hu.
  assert (Hm : 0 <= n mod 2 ^ 64 < 2 ^ 64) by (apply Z.mod_pos_bound; lia).
  assert (Hdiv : convert (TInt false W64) (VDouble (flt_lit (1000 # 1))) =
                 Some (VInt false W64 1000)).
  { cbn [convert]. unfold float_to_int. now rewrite H1000. }
  assert (H0 : divb1k (TInt false W64) (Some (VInt true W64 n)) =
               Some (VInt false W64 (Z.quot (n mod 2 ^ 64) 1000))).
  { unfold divb1k. rewrite Hdiv. unfold odiv, cdiv.
    cbn [mbind option_bind type_of common_type promote Bool.eqb wider bits
         Z.ltb Z.leb Z.compare Pos.compare Pos.compare_cont convert div_same].
    change (wrap false W64 n) with (n mod 2 ^ 64).
    change (wrap false W64 1000) with 1000.
    change (1000 =? 0) with false. cbv iota.
    assert (Hq : in_range false W64 (Z.quot (n mod 2 ^ 64) 1000) = true).
    { pose proof (quot_in_uint64 _ 1000 Hm ltac:(lia)).
      unfold in_range, int_min, int_max; cbn [bits].
      apply andb_true_iff. rewrite !Z.leb_le. lia. }
    now rewrite Hq. }
  assert (Hb : forall x, 0 <= x < 2 ^ 64 ->
             divb1k (TInt false W64) (Some (VInt false W64 x)) =
             Some (VInt false W64 (Z.quot x 1000))).
  { intros x Hx. unfold divb1k. rewrite Hdiv. apply odiv_uint64; auto; lia. }
  assert (Hk : forall x k, 0 <= x < 2 ^ 64 -> 0 < k < 2 ^ 15 ->
             odiv (Some (VInt false W64 x)) (Some (VInt true W32 k)) =
             Some (VInt false W64 (Z.quot x k))).
  { intros x k Hx Hk. now apply odiv_uint64. }
  assert (Hq : forall x k, 0 <= x < 2 ^ 64 -> 0 < k ->
             0 <= Z.quot x k < 2 ^ 64) by apply quot_in_uint64.
  assert (Hw : forall x, 0 <= x < 2 ^ 64 -> wrap false W64 x = x)
    by (intros x Hx; unfold wrap; cbn [bits]; apply Z.mod_small; lia).
  unfold RuntimeCastFromNano.
  destruct u; try discriminate Hu; cbn [Precision_int].
  1: { unfold nanos. cbn [mbind option_bind convert].
       rewrite (int64_t_id n Hn).
       change (wrap false W64 n) with (n mod 2 ^ 64).
       now rewrite Z.quot_1_r. }
  all: unfold weeks, days, hours, mins, secs, millis, micros, nanos,
      SecsInMin, MinsInHour, HoursInDay, DaysInWeek;
    rewrite (int64_t_id n Hn), H0;
    rewrite ?Hb, ?Hk by (repeat apply Hq; auto; lia);
    cbn [mbind option_bind convert];
    rewrite Hw by (repeat apply Hq; auto; lia);
    rewrite ?Z.quot_quot by lia; reflexivity.
Qed.

(** With an 8-bit integer return type the divisor [rtnType(1000.0)] has
    no value, and no unit that divides by it has one. *)
Lemma char_chain (s : bool) (n : Z) (u : Precision) :
  literal_1000 ->
  u <> Nanoseconds ->
  RuntimeCastFromNano (TInt s W8) n (Precision_int u) = None.
Proof.
  intros H1000 Hu.
  assert (Hm : micros (TInt s W8) n = None).
  { unfold micros, divb1k, nanos, odiv. cbn [mbind option_bind convert].
    unfold float_to_int. rewrite H1000. now destruct s. }
  unfold RuntimeCastFromNano.
  destruct u; try congruence; cbn [Precision_int];
    unfold months, years, weeks, days, hours, mins, secs, millis, divb1k;
    rewrite Hm; reflexivity.
Qed.
End IntegralFacts.

Lemma IEEE_literal_1000 : literal_1000 (FS := IEEE).
Proof. vm_compute. reflexivity. Qed.

Lemma Exact_literal_1000 : literal_1000 (FS := Exact).
Proof. vm_compute. reflexivity. Qed.

(** X10.  With an integral return type that holds 1000 and is not the
    unsigned 64-bit type (signed or unsigned 16 and 32 bits, signed 64
    bits), the units from Nanoseconds to Weeks are the count divided by
    the nanoseconds of the unit, truncated toward zero, then reduced
    modulo the width of the return type; both arithmetics agree. *)
Theorem integral_units_truncate
    (s : bool) (w : width) (n : Z) (u : Precision) :
  in_int64 n ->
  holds_1000 (TInt s w) = true ->
  (s || negb (bits w =? 64)) = true ->
  whole_unit u = true ->
  RuntimeCastFromNano (FS := IEEE) (TInt s w) n (Precision_int u) =
    Some (VInt s w (wrap s w (Z.quot n (unit_count u)))) /\
  RuntimeCastFromNano (FS := Exact) (TInt s w) n (Precision_int u) =
    Some (VInt s w (wrap s w (Z.quot n (unit_count u)))).
Proof.
  intros Hn Hw Hsw Hu. split.
  - now apply integral_chain; [apply IEEE_literal_1000|..].
  - now apply integral_chain; [apply Exact_literal_1000|..].
Qed.

(** X11.  With the return type [uint64_t] the count is converted to
    unsigned before the first division, so a negative duration [n] is
    divided as [n + 2 ^ 64]: the units from Nanoseconds to Weeks are
    [(n mod 2 ^ 64)] divided by the nanoseconds of the unit. *)
Theorem unsigned_units_wrap (n : Z) (u : Precision) :
  in_int64 n ->
  whole_unit u = true ->
  RuntimeCastFromNano (FS := IEEE) (TInt false W64) n (Precision_int u) =
    Some (VInt false W64 (Z.quot (n mod 2 ^ 64) (unit_count u))) /\
  RuntimeCastFromNano (FS := Exact) (TInt false W64) n (Precision_int u) =
    Some (VInt false W64 (Z.quot (n mod 2 ^ 64) (unit_count u))).
Proof.
  intros Hn Hu. split.
  - now apply unsigned_chain; [apply IEEE_literal_1000|..].
  - now apply unsigned_chain; [apply Exact_literal_1000|..].
Qed.

(** X12.  With the return type [signed char] or [unsigned char] every
    unit but Nanoseconds is undefined, for every duration: each of them
    divides by [rtnType(1000.0)], which the type cannot represent. *)
Theorem char_units_undefined (s : bool) (n : Z) (u : Precision) :
  u <> Nanoseconds ->
  RuntimeCastFromNano (FS := IEEE) (TInt s W8) n (Precision_int u) = None /\
  RuntimeCastFromNano (FS := Exact) (TInt s W8) n (Precision_int u) = None.
Proof.
  intros Hu. split.
  - now apply char_chain; [apply IEEE_literal_1000|].
  - now apply char_chain; [apply Exact_literal_1000|].
Qed.

(** *** Years and Months with a signed integral return type *)

Section DaysFacts.
Context {FS : FloatSem}.

(** The day count of the chain, with a signed integral return type. *)
Lemma days_integral (w : width) (n : Z) :
  literal_1000 ->
  in_int64 n ->
  holds_1000 (TInt true w) = true ->
  days (TInt true w) n = Some (VInt true W64 (whole_days n)).
Proof.
  intros H1000 Hn Hw.
  assert (Hdiv : convert (TInt true w) (VDouble (flt_lit (1000 # 1))) =
                 Some (VInt true w 1000)).
  { cbn [convert]. unfold float_to_int. rewrite H1000.
    destruct w; try discriminate Hw; reflexivity. }
  assert (Hk : forall x k, in_int64 x -> 0 < k < 2 ^ 15 ->
             odiv (Some (VInt true W64 x)) (Some (VInt true W32 k)) =
             Some (VInt true W64 (Z.quot x k))).
  { intros x k Hx Hk. now apply odiv_int64. }
  assert (Hb : forall x, in_int64 x ->
             divb1k (TInt true w) (Some (VInt true W64 x)) =
             Some (VInt true W64 (Z.quot x 1000))).
  { intros x Hx. unfold divb1k. rewrite Hdiv. apply odiv_int64; auto; lia. }
  assert (Hq : forall x k, in_int64 x -> 0 < k -> in_int64 (Z.quot x k))
    by apply quot_in_int64.
  unfold days, hours, mins, secs, millis, micros, nanos,
    SecsInMin, MinsInHour, HoursInDay.
  rewrite (int64_t_id n Hn).
  rewrite ?Hb, ?Hk by (repeat apply Hq; auto; lia).
  rewrite ?Z.quot_quot by lia. reflexivity.
Qed.
End DaysFacts.

Lemma whole_days_bound (n : Z) :
  in_int64 n -> - 106751 <= whole_days n <= 106751.
Proof.
  unfold in_int64, whole_days. intros Hn.
  pose proof (Z.quot_le_mono (- 2 ^ 63) n 86400000000000 ltac:(lia)
                ltac:(lia)) as Hlo.
  pose proof (Z.quot_le_mono n (2 ^ 63 - 1) 86400000000000 ltac:(lia)
                ltac:(lia)) as Hhi.
  change (Z.quot (- 2 ^ 63) 86400000000000) with (- 106751) in Hlo.
  change (Z.quot (2 ^ 63 - 1) 86400000000000) with 106751 in Hhi.
  lia.
Qed.

(** Truncation toward zero does not depend on the fraction chosen for a
    rational. *)
Lemma trunc_Qeq (p q : Q) :
  (p == q)%Q ->
  Z.quot (Qnum p) (QDen p) = Z.quot (Qnum q) (QDen q).
Proof.
  destruct p as [a b], q as [c d]. unfold Qeq. cbn [Qnum Qden]. intros E.
  assert (Hpos : forall x y : Z, forall e f : positive,
            0 <= x -> x * Zpos f = y * Zpos e ->
            Z.quot x (Zpos e) = Z.quot y (Zpos f)).
  { intros x y e f Hx Exy.
    assert (Hy : 0 <= y) by nia.
    rewrite !Z.quot_div_nonneg by lia.
    apply (Z.div_unique_pos _ _ _ (y - Zpos f * (x / Zpos e))); [|lia].
    pose proof (Z.div_mod x (Zpos e) ltac:(lia)) as Hdm.
    pose proof (Z.mod_pos_bound x (Zpos e) ltac:(lia)) as Hb.
    nia. }
  destruct (Z.le_gt_cases 0 a) as [Ha|Ha].
  - now apply Hpos.
  - assert (Ea : Z.quot a (Zpos b) = - Z.quot (- a) (Zpos b))
      by (rewrite Z.quot_opp_l by lia; lia).
    assert (Ec : Z.quot c (Zpos d) = - Z.quot (- c) (Zpos d))
      by (rewrite Z.quot_opp_l by lia; lia).
    rewrite Ea, Ec. f_equal. apply Hpos; lia.
Qed.

Lemma exact_trunc_fraction (x : Qc) (c : Z) (d : positive) :
  (x == c # d)%Q -> exact_trunc x = Some (Z.quot c (Zpos d)).
Proof.
  intros E. unfold exact_trunc. f_equal. exact (trunc_Qeq x (c # d) E).
Qed.

(** X13.  With a signed integral return type of at least 16 bits, Years
    and Months start from the whole number of days of the duration (the
    fraction of a day is dropped by the integer divisions), divide it in
    [double] and truncate the quotient: in exact arithmetic Years is
    [days * 100 / 36524] and Months is [days * 100 / 438288], truncated
    toward zero. *)
Theorem integral_years_from_whole_days (w : width) (n : Z) :
  in_int64 n ->
  holds_1000 (TInt true w) = true ->
  RuntimeCastFromNano (FS := Exact) (TInt true w) n (Precision_int Years) =
    Some (VInt true w (Z.quot (whole_days n * 100) 36524)) /\
  RuntimeCastFromNano (FS := Exact) (TInt true w) n (Precision_int Months) =
    Some (VInt true w (Z.quot (whole_days n * 100) 438288)).
Proof.
  intros Hn Hw.
  pose proof (whole_days_bound n Hn) as HD.
  set (D := whole_days n) in *.
  assert (Hy : exact_trunc
                 (Q2Qc (inject_Z D) / Q2Qc (36524 # 100))%Qc =
               Some (Z.quot (D * 100) 36524)).
  { apply (exact_trunc_fraction _ (D * 100) 36524).
    unfold Qcdiv, Qcmult, Qcinv, Q2Qc; cbn [this].
    rewrite !Qred_correct. unfold Qeq, Qmult, Qinv, inject_Z.
    cbn [Qnum Qden]. cbn. lia. }
  assert (Hm : exact_trunc
                 (Q2Qc (inject_Z D) / Q2Qc (36524 # 100) /
                  Q2Qc (inject_Z 12))%Qc =
               Some (Z.quot (D * 100) 438288)).
  { apply (exact_trunc_fraction _ (D * 100) 438288).
    unfold Qcdiv, Qcmult, Qcinv, Q2Qc; cbn [this].
    rewrite !Qred_correct. unfold Qeq, Qmult, Qinv, inject_Z.
    cbn [Qnum Qden]. cbn. lia. }
  assert (Hry : - 292 <= Z.quot (D * 100) 36524 <= 292).
  { pose proof (Z.quot_le_mono (- 10675100) (D * 100) 36524 ltac:(lia)
                  ltac:(lia)).
    pose proof (Z.quot_le_mono (D * 100) 10675100 36524 ltac:(lia)
                  ltac:(lia)).
    change (Z.quot (- 10675100) 36524) with (- 292) in *.
    change (Z.quot 10675100 36524) with 292 in *. lia. }
  assert (Hrm : - 24 <= Z.quot (D * 100) 438288 <= 24).
  { pose proof (Z.quot_le_mono (- 10675100) (D * 100) 438288 ltac:(lia)
                  ltac:(lia)).
    pose proof (Z.quot_le_mono (D * 100) 10675100 438288 ltac:(lia)
                  ltac:(lia)).
    change (Z.quot (- 10675100) 438288) with (- 24) in *.
    change (Z.quot 10675100 438288) with 24 in *. lia. }
  assert (Hin : forall z, - 292 <= z <= 292 -> in_range true w z = true).
  { intros z Hz. unfold in_range, int_min, int_max.
    apply andb_true_iff. rewrite !Z.leb_le.
    destruct w; try discriminate Hw; cbn; lia. }
  unfold RuntimeCastFromNano. cbn [Precision_int].
  unfold months, years.
  rewrite (days_integral (FS := Exact) w n Exact_literal_1000 Hn Hw).
  fold D. unfold DaysInYear, MonthsInYear, odiv, cdiv.
  cbn [mbind option_bind type_of common_type convert div_same
       flt_of_Z flt_div flt_lit flt_trunc Exact float_to_int].
  unfold float_to_int. cbn [flt_trunc Exact].
  rewrite Hy, Hm, !Hin by lia. split; reflexivity.
Qed.

(** *** Counts that [double] holds exactly *)

Lemma digits2_pos_lower (m : positive) :
  2 ^ (Zpos (digits2_pos m) - 1) <= Zpos m.
Proof.
  induction m as [m IH|m IH|]; cbn [digits2_pos]; [| |cbn; lia].
  - rewrite Pos2Z.inj_succ.
    replace (Z.succ (Zpos (digits2_pos m)) - 1)
      with (Z.succ (Zpos (digits2_pos m) - 1)) by lia.
    rewrite Z.pow_succ_r by lia. lia.
  - rewrite Pos2Z.inj_succ.
    replace (Z.succ (Zpos (digits2_pos m)) - 1)
      with (Z.succ (Zpos (digits2_pos m) - 1)) by lia.
    rewrite Z.pow_succ_r by lia. lia.
Qed.

Lemma digits2_pos_small (m : positive) :
  Zpos m < 2 ^ 53 -> Zpos (digits2_pos m) <= 53.
Proof.
  intros Hm. pose proof (digits2_pos_lower m) as Hl.
  destruct (Z.le_gt_cases (Zpos (digits2_pos m)) 53) as [H|H]; [exact H|].
  pose proof (Z.pow_le_mono_r 2 53 (Zpos (digits2_pos m) - 1)
                ltac:(lia) ltac:(lia)).
  lia.
Qed.

Lemma iter_xO_value (m p : positive) :
  Zpos (Pos.iter xO m p) = Zpos m * 2 ^ Zpos p.
Proof.
  induction p as [|p IH] using Pos.peano_ind.
  - cbn. lia.
  - rewrite Pos.iter_succ, Pos2Z.inj_xO, IH, Pos2Z.inj_succ.
    rewrite Z.pow_succ_r by lia. lia.
Qed.

Lemma iter_xO_digits (m p : positive) :
  digits2_pos (Pos.iter xO m p) = (digits2_pos m + p)%positive.
Proof.
  induction p as [|p IH] using Pos.peano_ind.
  - cbn. lia.
  - rewrite Pos.iter_succ. cbn [digits2_pos]. rewrite IH. lia.
Qed.

(** A mantissa of exactly 53 bits with an exponent in range is kept as it
    is by the rounding. *)
Lemma binary_round_aux_53 (mz : positive) (ez : Z) :
  digits2_pos mz = 53%positive -> - 52 <= ez <= 0 ->
  binary_round_aux 53 1024 false (Zpos mz) ez loc_Exact =
  S754_finite false mz ez.
Proof.
  intros Hd He.
  assert (Hf : fexp 53 1024 (Zdigits2 (Zpos mz) + ez) - ez = 0).
  { cbn [Zdigits2]. rewrite Hd. unfold fexp, emin. lia. }
  unfold binary_round_aux, shr_fexp.
  cbn [shr_record_of_loc]. rewrite Hf. cbn [shr shr_m loc_of_shr_record
    round_nearest_even shr_record_of_loc].
  rewrite Hf. cbn [shr shr_m].
  replace (ez <=? 1024 - 53) with true by (symmetry; apply Z.leb_le; lia).
  reflexivity.
Qed.

Lemma binary_round_exact (m : positive) :
  Zpos m < 2 ^ 53 ->
  ieee_trunc (binary_round 53 1024 false m 0) = Some (Zpos m).
Proof.
  intros Hm. pose proof (digits2_pos_small m Hm) as Hd.
  unfold binary_round.
  assert (Hf : fexp 53 1024 (Zpos (digits2_pos m) + 0) =
               Zpos (digits2_pos m) - 53) by (unfold fexp, emin; lia).
  rewrite Hf. unfold shl_align.
  destruct (Zpos (digits2_pos m) - 53 - 0) as [|p|p] eqn:Hp; [|lia|].
  - rewrite binary_round_aux_53 by lia. cbn [ieee_trunc]. f_equal. lia.
  - assert (Hez : Zpos (digits2_pos m) - 53 = Zneg p) by lia.
    rewrite Hez, binary_round_aux_53.
    + cbn [ieee_trunc]. rewrite iter_xO_value.
      rewrite Z.div_mul by (apply Z.pow_nonzero; lia). reflexivity.
    + rewrite iter_xO_digits. lia.
    + lia.
Qed.

Lemma ieee_trunc_opp (x : spec_float) :
  ieee_trunc (SFopp x) = Z.opp <$> ieee_trunc x.
Proof.
  destruct x as [s|s| |s m e]; cbn; try reflexivity.
  destruct s; cbn; f_equal; lia.
Qed.

Lemma ieee_of_Z_exact (n : Z) :
  - 2 ^ 53 <= n <= 2 ^ 53 -> ieee_trunc (ieee_of_Z Binary64 n) = Some n.
Proof.
  intros Hn.
  destruct (Z.eq_dec n (2 ^ 53)) as [->|H1]; [reflexivity|].
  destruct (Z.eq_dec n (- 2 ^ 53)) as [->|H2]; [reflexivity|].
  unfold ieee_of_Z, binary_normalize; cbn [prec emax].
  destruct n as [|m|m]; [reflexivity| |].
  - apply binary_round_exact. lia.
  - rewrite binary_round_opp, ieee_trunc_opp, binary_round_exact by lia.
    reflexivity.
Qed.

(** X14.  A count of at most [2 ^ 53] nanoseconds in absolute value (a
    little over 104 days) is converted to [double] without loss:
    [RuntimeCastFromNano<double>] with Nanoseconds returns a [double]
    whose value is the count itself. *)
Theorem nanoseconds_exact_up_to_2_53 (n : Z) :
  - 2 ^ 53 <= n <= 2 ^ 53 ->
  exists x : spec_float,
    RuntimeCastFromNano (FS := IEEE) TDouble n (Precision_int Nanoseconds) =
      Some (VDouble x) /\
    ieee_trunc x = Some n /\
    convert (FS := IEEE) (TInt true W64) (VDouble x) =
      Some (VInt true W64 n).
Proof.
  intros Hn.
  assert (Hi : in_int64 n) by (unfold in_int64; lia).
  exists (ieee_of_Z Binary64 n).
  pose proof (ieee_of_Z_exact n Hn) as Ht.
  split; [|split].
  - unfold RuntimeCastFromNano. cbn [Precision_int nanos mbind option_bind
      convert]. now rewrite (int64_t_id n Hi).
  - exact Ht.
  - cbn [convert]. unfold float_to_int. cbn [flt_trunc IEEE]. rewrite Ht.
    now rewrite in_range_int64.
Qed.

(** An integral Years can differ from the truncated [double] Years: of
    365.5 days the whole days are 365, less than a year of 365.24 days. *)
Example integral_years_drop_day_fraction :
  RuntimeCastFromNano (FS := Exact) (TInt true W64) 31579200000000000
    (Precision_int Years) = Some (VInt true W64 0) /\
  (exact_trunc <$> convert_double (FS := Exact) 31579200000000000 Years) =
    Some (Some 1).
Proof. split; vm_compute; reflexivity. Qed.

(** ** Instances of the further theorems on concrete inputs *)

Lemma steady_measurements_nonnegative_witness :
  let w := final (FS := IEEE) (CT := capped_clock) [Call_new] in
  0 <= now_sample (ClockType := capped_clock) (clock_reads w) - 1250.
Proof.
  refine (proj2 (proj2 (proj2 (steady_measurements_nonnegative
            (FS := IEEE) (CT := capped_clock) [Call_new] tt
            (final (FS := IEEE) (CT := capped_clock) [Call_new])
            O {| m_begin := 1250 |} false _ _ _)))).
  - split; intros; cbn [now_sample capped_clock]; lia.
  - vm_compute. reflexivity.
  - vm_compute. reflexivity.
Defined.

Lemma tare_then_elapsed_witness :
  (_ ← tare (CT := demo_clock) O;
   elapsedRawNanoDur (CT := demo_clock) false O) demo_world =
  Some (250,
        {| clock_reads := 4;
           GLOBAL_CLOCK := {| m_begin := 1000 |};
           heap := <[O := {| m_begin := 1500 |}]> (heap demo_world) |}).
Proof.
  refine (tare_then_elapsed (CT := demo_clock) O demo_world
            {| m_begin := 1250 |} _).
  reflexivity.
Defined.

Lemma two_laps_witness :
  (d1 ← elapsedRawNanoDur (CT := demo_clock) true O;
   d2 ← elapsedRawNanoDur (CT := demo_clock) true O;
   mret (d1, d2)) demo_world =
  Some ((250, 250),
        {| clock_reads := 6;
           GLOBAL_CLOCK := {| m_begin := 1000 |};
           heap := <[O := {| m_begin := 2250 |}]> (heap demo_world) |}).
Proof.
  refine (two_laps (CT := demo_clock) O demo_world {| m_begin := 1250 |} _).
  reflexivity.
Defined.

Lemma clock_reads_of_program_witness :
  clock_reads
    (final (FS := IEEE) (CT := demo_clock)
       [Call_new; Call_elapsed TDouble 1 true O; Call_beginDur O]) = 4%nat.
Proof.
  refine (clock_reads_of_program (FS := IEEE) (CT := demo_clock)
            [Call_new; Call_elapsed TDouble 1 true O; Call_beginDur O]
            _ tt _).
  vm_compute. reflexivity.
Defined.

Lemma uptime_never_decreases_witness :
  exists (d1 d2 : Z) (w1' w2' : World),
    nowDur (CT := capped_clock) O
      (final (FS := IEEE) (CT := capped_clock) [Call_new]) =
      Some (d1, w1') /\
    nowDur (CT := capped_clock) O
      (final (FS := IEEE) (CT := capped_clock) [Call_new; Call_tare O]) =
      Some (d2, w2') /\
    0 <= d1 <= d2.
Proof.
  refine (uptime_never_decreases (FS := IEEE) (CT := capped_clock)
            [Call_new] [Call_tare O] tt tt _ _ O O _ _ _).
  - split; intros; cbn [now_sample capped_clock]; lia.
  - vm_compute. reflexivity.
  - vm_compute. reflexivity.
Defined.

Lemma reset_shortens_reading_witness :
  let w := final (FS := IEEE) (CT := capped_clock)
             [Call_new; Call_nowDur O] in
  exists (d_reset d_plain : Z) (w1 w2 : World),
    (_ ← tare (CT := capped_clock) O;
     elapsedRawNanoDur (CT := capped_clock) false O) w =
      Some (d_reset, w1) /\
    (_ ← nowDur (CT := capped_clock) O;
     elapsedRawNanoDur (CT := capped_clock) false O) w =
      Some (d_plain, w2) /\
    clock_reads w1 = clock_reads w2 /\
    0 <= d_reset <= d_plain.
Proof.
  refine (reset_shortens_reading (FS := IEEE) (CT := capped_clock)
            [Call_new; Call_nowDur O] tt _ O {| m_begin := 1250 |} _ _ _).
  - split; intros; cbn [now_sample capped_clock]; lia.
  - vm_compute. reflexivity.
  - vm_compute. reflexivity.
Defined.

Lemma Exact_closed_form_witness :
  convert_double (FS := Exact) 90000000000 Minutes =
  Some (Q2Qc (inject_Z 90000000000) / Q2Qc (unit_ns Minutes))%Qc.
Proof.
  apply (Exact_closed_form 90000000000 Minutes). unfold in_int64. lia.
Defined.

Lemma IEEE_opposite_duration_witness :
  convert_double (FS := IEEE) (- 90000000000) Minutes =
  SFopp <$> convert_double (FS := IEEE) 90000000000 Minutes.
Proof.
  apply (IEEE_opposite_duration 90000000000 Minutes);
    unfold in_int64; lia.
Defined.

Lemma integral_units_truncate_witness :
  RuntimeCastFromNano (FS := IEEE) (TInt true W64) (- 1999999999)
    (Precision_int Seconds) = Some (VInt true W64 (- 1)) /\
  RuntimeCastFromNano (FS := Exact) (TInt true W64) (- 1999999999)
    (Precision_int Seconds) = Some (VInt true W64 (- 1)).
Proof.
  refine (integral_units_truncate true W64 (- 1999999999) Seconds _ _ _ _).
  - unfold in_int64. lia.
  - reflexivity.
  - reflexivity.
  - reflexivity.
Defined.

Lemma unsigned_units_wrap_witness :
  RuntimeCastFromNano (FS := IEEE) (TInt false W64) (- 1)
    (Precision_int Microseconds) =
    Some (VInt false W64 18446744073709551) /\
  RuntimeCastFromNano (FS := Exact) (TInt false W64) (- 1)
    (Precision_int Microseconds) =
    Some (VInt false W64 18446744073709551).
Proof.
  refine (unsigned_units_wrap (- 1) Microseconds _ _).
  - unfold in_int64. lia.
  - reflexivity.
Defined.

Lemma char_units_undefined_witness :
  RuntimeCastFromNano (FS := IEEE) (TInt false W8) 5000 (Precision_int Weeks)
    = None /\
  RuntimeCastFromNano (FS := Exact) (TInt false W8) 5000
    (Precision_int Weeks) = None.
Proof.
  refine (char_units_undefined false 5000 Weeks _). discriminate.
Defined.

Lemma integral_years_from_whole_days_witness :
  RuntimeCastFromNano (FS := Exact) (TInt true W32) 63158400000000000
    (Precision_int Years) = Some (VInt true W32 2) /\
  RuntimeCastFromNano (FS := Exact) (TInt true W32) 63158400000000000
    (Precision_int Months) = Some (VInt true W32 0).
Proof.
  refine (integral_years_from_whole_days W32 63158400000000000 _ _).
  - unfold in_int64. lia.
  - reflexivity.
Defined.

Lemma nanoseconds_exact_up_to_2_53_witness :
  exists x : spec_float,
    RuntimeCastFromNano (FS := IEEE) TDouble 123456789
      (Precision_int Nanoseconds) = Some (VDouble x) /\
    ieee_trunc x = Some 123456789 /\
    convert (FS := IEEE) (TInt true W64) (VDouble x) =
      Some (VInt true W64 123456789).
Proof.
  apply (nanoseconds_exact_up_to_2_53 123456789). lia.
Defined.

(** ** [RuntimeCast]: through [double] to the return type *)

(** X18.  [RuntimeCast] converts a zero duration to the zero of the
    return type for every selector and every return type, the 8-bit
    integers included: it divides in [double] and converts the quotient. *)
Theorem RuntimeCast_zero (rtnType : ctype) (precision : Z) :
  RuntimeCast (FS := IEEE) rtnType 0 precision = Some (zero rtnType) /\
  RuntimeCast (FS := Exact) rtnType 0 precision = Some (zero rtnType).
Proof.
  unfold RuntimeCast, duration_cast_nanoseconds. split.
  - rewrite (zero_IEEE TDouble precision (or_introl eq_refl)).
    destruct rtnType as [|[] []| |]; reflexivity.
  - rewrite (zero_Exact TDouble precision (or_introl eq_refl)).
    destruct rtnType as [|[] []| |]; reflexivity.
Qed.

Lemma RuntimeCast_int64_exact (d : Z) :
  - 2 ^ 53 <= d <= 2 ^ 53 ->
  RuntimeCast (FS := IEEE) (TInt true W64) d (Precision_int Nanoseconds) =
  Some (VInt true W64 d).
Proof.
  intros Hd.
  assert (Hi : in_int64 d) by (unfold in_int64; lia).
  unfold RuntimeCast, duration_cast_nanoseconds, RuntimeCastFromNano.
  cbn [Precision_int nanos mbind option_bind convert].
  rewrite (int64_t_id d Hi). unfold float_to_int. cbn [flt_trunc flt_of_Z IEEE].
  rewrite (ieee_of_Z_exact d Hd). now rewrite in_range_int64.
Qed.

Section ThroughDouble.
Context {CT : ClockType}.

Ltac unfold_calls :=
  unfold elapsed, elapsedRawNano, elapsedRawNanoDur, tare,
    now, nowDur, begin, beginDur, defined,
    load_GLOBAL_CLOCK, store, load, ClockType_now,
    mbind, M_bind, mret, M_ret in *;
  cbn [clock_reads GLOBAL_CLOCK heap m_begin] in *.

(** Claim C6, amended.  [begin] and [now] ignore their [precision]
    argument: for every return type and every value of [precision],
    [begin] returns the raw nanosecond count
    [m_begin - GLOBAL_CLOCK.m_begin] and [now] the raw count
    [ClockType::now() - GLOBAL_CLOCK.m_begin], converted to [double] and
    from [double] to the return type, with no conversion of unit.  With
    the return type [double] the result is the count as a [double]; with
    the default return type [int64_t] it is the count itself when the
    count is at most [2 ^ 53] in absolute value. *)
Theorem begin_now_ignore_precision
    (rtnType : ctype) (precision : Z) (this : nat) (w : World)
    (o : ADVClock) :
  heap w !! this = Some o ->
  let since := diff (m_begin o) (m_begin (GLOBAL_CLOCK w)) in
  let uptime :=
    diff (now_sample (clock_reads w)) (m_begin (GLOBAL_CLOCK w)) in
  let w1 := {| clock_reads := S (clock_reads w);
               GLOBAL_CLOCK := GLOBAL_CLOCK w;
               heap := heap w |} in
  begin (FS := IEEE) rtnType precision this w =
    defined (convert (FS := IEEE) rtnType
               (VDouble (ieee_of_Z Binary64 since))) w /\
  now (FS := IEEE) rtnType precision this w =
    defined (convert (FS := IEEE) rtnType
               (VDouble (ieee_of_Z Binary64 uptime))) w1 /\
  begin (FS := IEEE) TDouble precision this w =
    Some (VDouble (ieee_of_Z Binary64 since), w) /\
  now (FS := IEEE) TDouble precision this w =
    Some (VDouble (ieee_of_Z Binary64 uptime), w1) /\
  (- 2 ^ 53 <= since <= 2 ^ 53 ->
   begin (FS := IEEE) (TInt true W64) precision this w =
     Some (VInt true W64 since, w)) /\
  (- 2 ^ 53 <= uptime <= 2 ^ 53 ->
   now (FS := IEEE) (TInt true W64) precision this w =
     Some (VInt true W64 uptime, w1)).
Proof.
  intros Hthis since uptime w1.
  assert (Hall : forall r,
            begin (FS := IEEE) r precision this w =
              defined (convert (FS := IEEE) r
                         (VDouble (ieee_of_Z Binary64 since))) w /\
            now (FS := IEEE) r precision this w =
              defined (convert (FS := IEEE) r
                         (VDouble (ieee_of_Z Binary64 uptime))) w1).
  { intros r.
    exact (begin_now_through_double (FS := IEEE) r precision this w o Hthis). }
  split; [apply Hall|]. split; [apply Hall|].
  split; [apply (Hall TDouble)|]. split; [apply (Hall TDouble)|].
  assert (Hc : forall d, - 2 ^ 53 <= d <= 2 ^ 53 ->
            convert (FS := IEEE) (TInt true W64)
              (VDouble (ieee_of_Z Binary64 d)) = Some (VInt true W64 d)).
  { intros d Hd. cbn [convert]. unfold float_to_int. cbn [flt_trunc IEEE].
    rewrite (ieee_of_Z_exact d Hd).
    now rewrite in_range_int64 by (unfold in_int64; lia). }
  split; intros Hr.
  - rewrite (proj1 (Hall (TInt true W64))), (Hc _ Hr). reflexivity.
  - rewrite (proj2 (Hall (TInt true W64))), (Hc _ Hr). reflexivity.
Qed.

(** X5.  [elapsed<int64_t>(Precision::Nanoseconds, tareClock)] returns
    the count of [elapsedRawNano(tareClock)], with the same effects, when
    that count is at most [2 ^ 53] in absolute value: the count goes
    through [double] on its way. *)
Theorem elapsed_int64_Nanoseconds
    (tareClock : bool) (this : nat) (w w' : World) (d : Z) :
  elapsedRawNano tareClock this w = Some (d, w') ->
  - 2 ^ 53 <= d <= 2 ^ 53 ->
  elapsed (FS := IEEE) (TInt true W64) (Precision_int Nanoseconds)
    tareClock this w =
  Some (VInt true W64 d, w').
Proof.
  intros H Hd.
  assert (E : elapsedRawNanoDur tareClock this w = Some (d, w')).
  { rewrite <- H. unfold_calls.
    destruct (heap w !! this) as [o|] eqn:Hthis; [|reflexivity].
    destruct tareClock; unfold_calls; rewrite ?Hthis; reflexivity. }
  unfold elapsed. unfold mbind at 1, M_bind at 1. rewrite E.
  unfold defined. now rewrite (RuntimeCast_int64_exact d Hd).
Qed.
End ThroughDouble.

(** Claim C6 as stated fails: an instance created a little over 104 days
    after the epoch has the raw count [2 ^ 53 + 1], and [begin] with the
    default return type [int64_t] returns [2 ^ 53], the count rounded by
    its passage through [double]. *)
Lemma begin_rounds_count_above_2_53 :
  let w := final (FS := IEEE) (CT := late_clock) [Call_new] in
  beginDur O w = Some (2 ^ 53 + 1, w) /\
  begin (FS := IEEE) (TInt true W64)
    (Precision_int Nanoseconds) O w =
    Some (VInt true W64 (2 ^ 53), w) /\
  begin (FS := IEEE) (TInt true W64)
    (Precision_int Nanoseconds) O w <>
    Some (VInt true W64 (2 ^ 53 + 1), w).
Proof.
  cbv zeta.
  assert (E : begin (FS := IEEE) (TInt true W64)
                (Precision_int Nanoseconds) O
                (final (FS := IEEE) (CT := late_clock) [Call_new]) =
              Some (VInt true W64 (2 ^ 53),
                    final (FS := IEEE) (CT := late_clock) [Call_new]))
    by (vm_compute; reflexivity).
  split; [vm_compute; reflexivity|]. split; [exact E|].
  rewrite E. intros H. inversion H.
Qed.

Lemma begin_now_ignore_precision_witness :
  heap demo_world !! O = Some {| m_begin := 1250 |} /\
  begin (FS := IEEE) (TInt true W64)
    (Precision_int Hours) O demo_world =
    Some (VInt true W64 250, demo_world).
Proof.
  assert (H : heap demo_world !! O = Some {| m_begin := 1250 |})
    by reflexivity.
  split; [exact H|].
  refine (proj1 (proj2 (proj2 (proj2 (proj2 (begin_now_ignore_precision
            (CT := demo_clock) (TInt true W64) (Precision_int Hours)
            O demo_world _ H))))) _).
  vm_compute. split; discriminate.
Defined.

Lemma elapsed_int64_Nanoseconds_witness :
  elapsed (FS := IEEE) (CT := demo_clock) (TInt true W64)
    (Precision_int Nanoseconds) false O demo_world =
  Some (VInt true W64 250,
        {| clock_reads := 3;
           GLOBAL_CLOCK := {| m_begin := 1000 |};
           heap := heap demo_world |}).
Proof.
  refine (elapsed_int64_Nanoseconds (CT := demo_clock) false O demo_world
            _ 250 _ _).
  - vm_compute. reflexivity.
  - lia.
Defined.


